(** * Verification of [datatransformation.py]

    A shallow embedding of the Kinesis Firehose transformation Lambda:
    [validate_environment_variables], [process_record] and [handler],
    together with models of the library calls they make
    ([base64.b64decode] / [b64encode], [bytes.decode('utf-8')] /
    [str.encode('utf-8')], [str.split], [str.strip], [pandas.DataFrame]
    and [DataFrame.to_csv]).

    Python text ([str]) is a list of Unicode code points, [bytes] a list
    of numbers below 256.  Exceptions and logger calls are threaded
    through a small writer-and-error monad, so that a raised exception,
    the [try]/[except] blocks and the order of the log lines are all
    visible in the model. *)

From Stdlib Require Import String Ascii.
From Stdlib Require DecimalString.
From Stdlib Require Import List Arith NArith ZArith Lia Bool.
Import ListNotations.

Local Open Scope N_scope.

(** ** Python values *)

(** A Python [str]: its code points, in order. *)
Definition str := list N.

(** A Python [bytes] object: its bytes, each below 256. *)
Definition bytes := list N.

Definition str_of (s : string) : str :=
  map N_of_ascii (list_ascii_of_string s).

Definition TAB : N := 9.
Definition LF : N := 10.
Definition COMMA : N := 44.
Definition DQUOTE : N := 34.

Definition all_bytes (bs : bytes) : Prop := Forall (fun b => b < 256) bs.

(** Unicode scalar values: what a [str] obtained by decoding UTF-8 holds. *)
Definition scalarb (c : N) : bool :=
  (c <? 55296) || ((57344 <=? c) && (c <=? 1114111)).

Definition scalar_text (s : str) : Prop := Forall (fun c => scalarb c = true) s.

(** ** Exceptions, log lines and the monad *)

Inductive exn : Type :=
| ValueError (msg : string)
| TypeError (msg : string)
| KeyError (key : string)
| BinasciiError (msg : string)
| UnicodeDecodeError
| UnicodeEncodeError.

(** One constructor per [logger] call of the module. *)
Inductive log_entry : Type :=
| InfoProcessingRecord (rid : str)
| WarningMalformedLine (line : str)
| ErrorProcessingLine (line : str) (e : exn)
| ErrorProcessingRecord (rid : str) (e : exn)
| InfoProcessed (n : nat).

Inductive outcome (A : Type) : Type :=
| Return (a : A)
| Raise (e : exn).
Arguments Return {A} a.
Arguments Raise {A} e.

(** A computation: the log lines it wrote, and how it ended. *)
Definition M (A : Type) : Type := (list log_entry * outcome A)%type.

Definition ret {A} (a : A) : M A := ([], Return a).
Definition raise {A} (e : exn) : M A := ([], Raise e).
Definition lift {A} (o : outcome A) : M A := ([], o).
Definition logger (l : log_entry) : M unit := ([l], Return tt).

Definition bind {A B} (m : M A) (f : A -> M B) : M B :=
  match m with
  | (l, Return a) => let (l', r) := f a in (l ++ l', r)
  | (l, Raise e) => (l, Raise e)
  end.

(** [try: m except Exception as e: h e]. *)
Definition try_except {A} (m : M A) (h : exn -> M A) : M A :=
  match m with
  | (l, Raise e) => let (l', r) := h e in (l ++ l', r)
  | (l, Return a) => (l, Return a)
  end.

Definition value {A} (m : M A) : outcome A := snd m.

Declare Scope py_scope.
Delimit Scope py_scope with py.
Notation "x <- m ;; k" := (bind m (fun x => k))
  (at level 61, m at next level, right associativity) : py_scope.
Notation "m ;;; k" := (bind m (fun _ => k))
  (at level 61, right associativity) : py_scope.
Local Open Scope py_scope.

(** ** [str] methods *)

(** [s.split(sep)] for a one-character separator. *)
Fixpoint split (sep : N) (s : str) : list str :=
  match s with
  | [] => [[]]
  | c :: s' =>
      if c =? sep then [] :: split sep s'
      else match split sep s' with
           | h :: t => (c :: h) :: t
           | [] => [[c]]
           end
  end.

(** [sep.join(parts)]. *)
Fixpoint join (sep : str) (parts : list str) : str :=
  match parts with
  | [] => []
  | [p] => p
  | p :: ps => p ++ sep ++ join sep ps
  end.

(** [c.isspace()]: the code points CPython's [str.strip()] removes. *)
Definition isspace (c : N) : bool :=
  ((9 <=? c) && (c <=? 13)) || ((28 <=? c) && (c <=? 32))
  || (c =? 133) || (c =? 160) || (c =? 5760)
  || ((8192 <=? c) && (c <=? 8202))
  || (c =? 8232) || (c =? 8233) || (c =? 8239) || (c =? 8287)
  || (c =? 12288).

Fixpoint lstrip (s : str) : str :=
  match s with
  | [] => []
  | c :: s' => if isspace c then lstrip s' else s
  end.

Definition rstrip (s : str) : str := rev (lstrip (rev s)).

(** [s.strip()]. *)
Definition strip (s : str) : str := rstrip (lstrip s).

(** Truthiness of a [str]: [not s] holds for the empty string only. *)
Definition not_ (s : str) : bool :=
  match s with [] => true | _ => false end.

(** ** The UTF-8 codec *)

Definition map_outcome {A B} (f : A -> B) (o : outcome A) : outcome B :=
  match o with
  | Return a => Return (f a)
  | Raise e => Raise e
  end.

(** A continuation byte, 10xxxxxx. *)
Definition continuation (b : N) : bool := (128 <=? b) && (b <? 192).

(** [bs.decode('utf-8')], strict: overlong forms, surrogates, code
    points above U+10FFFF, stray or missing continuation bytes all raise
    [UnicodeDecodeError]. *)
Fixpoint utf8_decode (bs : bytes) : outcome str :=
  match bs with
  | [] => Return []
  | b0 :: r0 =>
      if b0 <? 128 then map_outcome (cons b0) (utf8_decode r0)
      else if b0 <? 192 then Raise UnicodeDecodeError
      else if b0 <? 224 then
        match r0 with
        | b1 :: r1 =>
            let c := (b0 mod 32) * 64 + b1 mod 64 in
            if continuation b1 && (128 <=? c)
            then map_outcome (cons c) (utf8_decode r1)
            else Raise UnicodeDecodeError
        | _ => Raise UnicodeDecodeError
        end
      else if b0 <? 240 then
        match r0 with
        | b1 :: b2 :: r2 =>
            let c := (b0 mod 16) * 4096 + (b1 mod 64) * 64 + b2 mod 64 in
            if continuation b1 && continuation b2 && (2048 <=? c) && scalarb c
            then map_outcome (cons c) (utf8_decode r2)
            else Raise UnicodeDecodeError
        | _ => Raise UnicodeDecodeError
        end
      else if b0 <? 248 then
        match r0 with
        | b1 :: b2 :: b3 :: r3 =>
            let c := (b0 mod 8) * 262144 + (b1 mod 64) * 4096
                     + (b2 mod 64) * 64 + b3 mod 64 in
            if continuation b1 && continuation b2 && continuation b3
               && (65536 <=? c) && (c <=? 1114111)
            then map_outcome (cons c) (utf8_decode r3)
            else Raise UnicodeDecodeError
        | _ => Raise UnicodeDecodeError
        end
      else Raise UnicodeDecodeError
  end.

(** The UTF-8 form of one code point; [None] for a surrogate or a number
    that is no code point. *)
Definition utf8_encode_char (c : N) : option bytes :=
  if c <? 128 then Some [c]
  else if c <? 2048 then Some [192 + c / 64; 128 + c mod 64]
  else if c <? 65536 then
    if scalarb c
    then Some [224 + c / 4096; 128 + (c / 64) mod 64; 128 + c mod 64]
    else None
  else if c <=? 1114111 then
    Some [240 + c / 262144; 128 + (c / 4096) mod 64;
          128 + (c / 64) mod 64; 128 + c mod 64]
  else None.

(** [s.encode('utf-8')], strict. *)
Fixpoint utf8_encode (s : str) : outcome bytes :=
  match s with
  | [] => Return []
  | c :: s' =>
      match utf8_encode_char c with
      | None => Raise UnicodeEncodeError
      | Some bs => map_outcome (app bs) (utf8_encode s')
      end
  end.

(** ** The base64 codec ([binascii], as [base64] calls it) *)

Definition BASE64_PAD : N := 61.

(** [table_b2a_base64]: the character of a 6-bit value. *)
Definition table_b2a_base64 (v : N) : N :=
  if v <? 26 then 65 + v
  else if v <? 52 then 97 + (v - 26)
  else if v <? 62 then 48 + (v - 52)
  else if v =? 62 then 43
  else 47.

(** [table_a2b_base64]: the 6-bit value of a character of the alphabet,
    [None] for every other character. *)
Definition table_a2b_base64 (ch : N) : option N :=
  if (65 <=? ch) && (ch <=? 90) then Some (ch - 65)
  else if (97 <=? ch) && (ch <=? 122) then Some (ch - 97 + 26)
  else if (48 <=? ch) && (ch <=? 57) then Some (ch - 48 + 52)
  else if ch =? 43 then Some 62
  else if ch =? 47 then Some 63
  else None.

(** [binascii.b2a_base64(bin, newline=False)]: three bytes give four
    characters; a last group of one or two bytes is padded with [=]. *)
Fixpoint b2a_base64 (bin : bytes) : bytes :=
  match bin with
  | [] => []
  | [a] =>
      [table_b2a_base64 (a / 4); table_b2a_base64 ((a mod 4) * 16);
       BASE64_PAD; BASE64_PAD]
  | [a; b] =>
      [table_b2a_base64 (a / 4);
       table_b2a_base64 ((a mod 4) * 16 + b / 16);
       table_b2a_base64 ((b mod 16) * 4); BASE64_PAD]
  | a :: b :: c :: rest =>
      table_b2a_base64 (a / 4)
      :: table_b2a_base64 ((a mod 4) * 16 + b / 16)
      :: table_b2a_base64 ((b mod 16) * 4 + c / 64)
      :: table_b2a_base64 (c mod 64)
      :: b2a_base64 rest
  end.

(** A number in decimal, as [%zd] prints it. *)
Definition decimal (n : N) : string :=
  DecimalString.NilZero.string_of_uint (N.to_uint n).

(** [binascii.a2b_base64(ascii)] in its default, lenient mode, as the
    loop of CPython: characters outside the alphabet are skipped; a pad
    character ends the input once the quad it closes is complete, and is
    skipped otherwise; input that ends inside a quad raises
    [binascii.Error].  [quad_pos] is the position in the current quad,
    [leftchar] the bits not yet written, [pads] the pad characters seen
    since the last data character.  The message for a single character
    left over gives the number of data characters read, computed from
    the bytes written so far. *)
Fixpoint a2b_loop (ascii : bytes) (quad_pos leftchar pads : N) (bin : bytes)
  : outcome bytes :=
  match ascii with
  | [] =>
      if quad_pos =? 0 then Return bin
      else if quad_pos =? 1 then
        Raise (BinasciiError
                 ("Invalid base64-encoded string: number of data characters ("
                  ++ decimal (N.of_nat (length bin) / 3 * 4 + 1)
                  ++ ") cannot be 1 more than a multiple of 4")%string)
      else Raise (BinasciiError "Incorrect padding")
  | ch :: rest =>
      if ch =? BASE64_PAD then
        if (2 <=? quad_pos) && (4 <=? quad_pos + (pads + 1)) then Return bin
        else a2b_loop rest quad_pos leftchar
                      (if 2 <=? quad_pos then pads + 1 else pads) bin
      else
        match table_a2b_base64 ch with
        | None => a2b_loop rest quad_pos leftchar pads bin
        | Some v =>
            if quad_pos =? 0 then a2b_loop rest 1 v 0 bin
            else if quad_pos =? 1 then
              a2b_loop rest 2 (v mod 16) 0
                       (bin ++ [(leftchar * 4 + v / 16) mod 256])
            else if quad_pos =? 2 then
              a2b_loop rest 3 (v mod 4) 0
                       (bin ++ [(leftchar * 16 + v / 4) mod 256])
            else
              a2b_loop rest 0 0 0 (bin ++ [(leftchar * 64 + v) mod 256])
        end
  end.

Definition a2b_base64 (ascii : bytes) : outcome bytes :=
  a2b_loop ascii 0 0 0 [].

(** [base64.b64encode(s)]. *)
Definition b64encode (s : bytes) : bytes := b2a_base64 s.

(** [base64.b64decode(s)] for the value of [record.get('data')]: [None]
    is no bytes-like object; a [str] must be pure ASCII and is then
    handed to [binascii.a2b_base64]. *)
Definition b64decode (s : option str) : outcome bytes :=
  match s with
  | None =>
      Raise (TypeError "argument should be a bytes-like object or ASCII string, not 'NoneType'")
  | Some s =>
      if forallb (fun c => c <? 128) s then a2b_base64 s
      else Raise (ValueError "string argument should contain only ASCII characters")
  end.

(** ** [pandas]: the frame and its CSV form *)

Record DataFrame : Type := {
  df_columns : list string;
  df_values : list (list str)
}.

(** [pd.DataFrame(data, columns=columns)] for a list of rows of text.
    The rows must match the column labels; the frame is built when
    every row has one value per label, which is all the module ever
    passes, and the constructor is taken to raise [ValueError] on any
    other data. *)
Definition pd_DataFrame (data : list (list str)) (columns : list string)
  : outcome DataFrame :=
  if forallb (fun row => Nat.eqb (length row) (length columns)) data
  then Return {| df_columns := columns; df_values := data |}
  else Raise (ValueError "columns passed do not match the data").

(** The characters that make the [csv] writer quote a field: with
    [QUOTE_MINIMAL], the delimiter (a comma), the quote character (the
    double quote) and the characters of the line terminator, which is
    [os.linesep], a line feed. *)
Definition csv_special (c : N) : bool :=
  (c =? COMMA) || (c =? DQUOTE) || (c =? LF).

Definition csv_escape (c : N) : str :=
  if c =? DQUOTE then [DQUOTE; DQUOTE] else [c].

Definition csv_field (f : str) : str :=
  if existsb csv_special f
  then DQUOTE :: flat_map csv_escape f ++ [DQUOTE]
  else f.

(** One written row.  A row that is a single empty field is written as
    a pair of quotes, so that it does not read back as an empty line. *)
Definition csv_row (row : list str) : str :=
  match row with
  | [[]] => [DQUOTE; DQUOTE; LF]
  | _ => join [COMMA] (map csv_field row) ++ [LF]
  end.

(** [df.to_csv(header=False, index=False)]: the rows only, in order. *)
Definition to_csv (df : DataFrame) : str :=
  concat (map csv_row (df_values df)).

(** ** The module *)

(** A Firehose record as the code receives it: a [dict] in which either
    key may be missing. *)
Record record : Type := {
  rec_recordId : option str;
  rec_data : option str
}.

(** The InputRecord of the data model: both keys present. *)
Record InputRecord : Type := {
  in_recordId : str;
  in_data : str
}.

Definition as_dict (r : InputRecord) : record :=
  {| rec_recordId := Some (in_recordId r); rec_data := Some (in_data r) |}.

Inductive Result : Type := Ok | ProcessingFailed.

Record OutputRecord : Type := {
  out_recordId : str;
  result : Result;
  out_data : str
}.

(** The event [dict]: the key [records] may be missing. *)
Record Event : Type := { ev_records : option (list record) }.

Record Response : Type := { records : list OutputRecord }.

(** [d[key]]: [KeyError] when the key is missing. *)
Definition getitem (key : string) (v : option str) : M str :=
  match v with
  | Some s => ret s
  | None => raise (KeyError key)
  end.

Definition CLICKSTREAM_LABELS : list string :=
  ["prev"; "curr"; "type"; "n"]%string.

Definition DELIMITER : N := TAB.

(** The [for line in lines] loop of [process_record]; [records] is the
    list the loop appends to. *)
Fixpoint process_lines (lines : list str) (records : list (list str))
  : M (list (list str)) :=
  match lines with
  | [] => ret records
  | line :: rest =>
      if not_ (strip line) then process_lines rest records
      else
        records' <-
          try_except
            (let cols := split DELIMITER line in
             if negb (Nat.eqb (length cols) (length CLICKSTREAM_LABELS))
             then logger (WarningMalformedLine line) ;;; ret records
             else ret (records ++ [cols]))
            (fun e => logger (ErrorProcessingLine line e) ;;; ret records) ;;
        process_lines rest records'
  end.

(** The [try] block of [process_record]. *)
Definition process_record_try (record : record) : M OutputRecord :=
  raw <- lift (b64decode (rec_data record)) ;;
  data <- lift (utf8_decode raw) ;;
  rid <- getitem "recordId" (rec_recordId record) ;;
  logger (InfoProcessingRecord rid) ;;;
  let lines := split LF data in
  records <- process_lines lines [] ;;
  df <- lift (pd_DataFrame records CLICKSTREAM_LABELS) ;;
  csv_data <- lift (utf8_encode (to_csv df)) ;;
  encoded_data <- lift (utf8_decode (b64encode csv_data)) ;;
  rid <- getitem "recordId" (rec_recordId record) ;;
  ret {| out_recordId := rid; result := Ok; out_data := encoded_data |}.

(** Its [except Exception as e] block. *)
Definition process_record_except (record : record) (e : exn)
  : M OutputRecord :=
  rid <- getitem "recordId" (rec_recordId record) ;;
  logger (ErrorProcessingRecord rid e) ;;;
  rid <- getitem "recordId" (rec_recordId record) ;;
  data <- getitem "data" (rec_data record) ;;
  ret {| out_recordId := rid; result := ProcessingFailed; out_data := data |}.

Definition process_record (record : record) : M OutputRecord :=
  try_except (process_record_try record) (process_record_except record).

(** The [for record in ...] loop of [handler]. *)
Fixpoint handler_loop (rs : list record) (response : list OutputRecord)
  : M (list OutputRecord) :=
  match rs with
  | [] => ret response
  | r :: rest =>
      processed_record <- process_record r ;;
      handler_loop rest (response ++ [processed_record])
  end.

Section Module.

(** [os.environ.get('DATA_BUCKET_NAME')], read once at import. *)
Variable data_bucket : option str.

Definition validate_environment_variables : M unit :=
  match data_bucket with
  | Some (_ :: _) => ret tt
  | _ =>
      raise (ValueError "Environment variable DATA_BUCKET_NAME is not set.")
  end.

Definition handler (event : Event) (context : unit) : M Response :=
  validate_environment_variables ;;;
  rs <- handler_loop
          (match ev_records event with Some rs => rs | None => [] end) [] ;;
  logger (InfoProcessed (length rs)) ;;;
  ret {| records := rs |}.

End Module.

(** ** Notions the properties are stated with *)

(** A line of white space only (the empty line included). *)
Definition blank (line : str) : bool := forallb isspace line.

(** A line the loop keeps: not blank, and exactly four fields. *)
Definition valid_line (line : str) : bool :=
  negb (blank line)
  && Nat.eqb (length (split DELIMITER line)) (length CLICKSTREAM_LABELS).

(** The rows of a decoded payload, as a filter over its lines. *)
Definition parsed_rows (lines : list str) : list (list str) :=
  map (split DELIMITER) (filter valid_line lines).

(** The 6-bit values, and the test of the two base64 tables on one. *)
Definition sextets : list N := map N.of_nat (seq 0 64).

Definition table_check (v : N) : bool :=
  match table_a2b_base64 (table_b2a_base64 v) with
  | Some w =>
      (w =? v) && negb (table_b2a_base64 v =? BASE64_PAD)
      && (table_b2a_base64 v <? 128)
  | None => false
  end.

(** An output record carries the [recordId] of an input record. *)
Definition same_recordId (r : record) (o : OutputRecord) : Prop :=
  rec_recordId r = Some (out_recordId o).

(** [event.get('records', [])]. *)
Definition event_records (event : Event) : list record :=
  match ev_records event with Some rs => rs | None => [] end.

(** Processing fails: the [try] block raises. *)
Definition processing_fails (r : record) : Prop :=
  exists e, value (process_record_try r) = Raise e.

(** The payload cannot be decoded: [b64decode] raises, or the bytes it
    returns are not UTF-8. *)
Definition undecodable (data : str) : bool :=
  match b64decode (Some data) with
  | Raise _ => true
  | Return raw =>
      match utf8_decode raw with
      | Raise _ => true
      | Return _ => false
      end
  end.

(** The CSV text [process_record] builds from a decoded payload: the
    kept lines, each split into its fields and written as one row. *)
Definition csv_body (text : str) : str :=
  concat (map csv_row (parsed_rows (split LF text))).

(** A row of four fields is written as its fields, quoted where the
    writer has to, joined by commas and ended by a line feed. *)
Definition csv_line (row : list str) : str :=
  join [COMMA] (map csv_field row) ++ [LF].

(** A field no character of which makes the writer quote it. *)
Definition plain (f : str) : bool := negb (existsb csv_special f).

(** The number of line feeds of a text. *)
Definition count_lf (s : str) : nat := count_occ N.eq_dec s LF.

(** The log lines a computation wrote. *)
Definition trace {A} (m : M A) : list log_entry := fst m.

(** A line the loop warns about: not blank, and not of four fields. *)
Definition malformed_line (line : str) : bool :=
  negb (blank line)
  && negb (Nat.eqb (length (split DELIMITER line)) (length CLICKSTREAM_LABELS)).

(** A tab becomes a comma, every other character stays. *)
Definition tab_to_comma (c : N) : N := if c =? TAB then COMMA else c.

(** A character of the base64 alphabet, or the pad character. *)
Definition base64_char (ch : N) : bool :=
  match table_a2b_base64 ch with
  | Some _ => true
  | None => ch =? BASE64_PAD
  end.

(** [process_record] returns the record with result [Ok], and its output
    [data] decodes (base64, then UTF-8) to the text [csv]. *)
Definition transforms_to (r : InputRecord) (csv : str) : Prop :=
  exists (out : OutputRecord) (body : bytes),
    value (process_record (as_dict r)) = Return out
    /\ out_recordId out = in_recordId r
    /\ result out = Ok
    /\ b64decode (Some (out_data out)) = Return body
    /\ utf8_decode body = Return csv.

(** The output record fed back as an input record. *)
Definition as_input (o : OutputRecord) : InputRecord :=
  {| in_recordId := out_recordId o; in_data := out_data o |}.

(** ** Concrete payloads and records *)

(** Tab-separated text: one line per row, each ended by a line feed. *)
Definition tsv (rows : list (list string)) : str :=
  concat (map (fun row => join [TAB] (map str_of row) ++ [LF]) rows).

(** The text [a\tb\tc\t1\nx\ty\tz\t2\n] and its base64 form. *)
Definition scenario_text : str :=
  tsv [["a"; "b"; "c"; "1"]; ["x"; "y"; "z"; "2"]]%string.

Definition scenario_record : InputRecord :=
  {| in_recordId := str_of "r1";
     in_data := str_of "YQliCWMJMQp4CXkJegkyCg==" |}.

(** A record whose payload is no base64: two data characters, no padding. *)
Definition broken_record : InputRecord :=
  {| in_recordId := str_of "r2"; in_data := str_of "ab" |}.

(** A record with the given payload, base64 form spelled out. *)
Definition record_with (data : string) : InputRecord :=
  {| in_recordId := str_of "r1"; in_data := str_of data |}.

(** A batch of InputRecords of the data model. *)
Definition batch (rs : list InputRecord) : Event :=
  {| ev_records := Some (map as_dict rs) |}.

(** A dict without the key [recordId], and one without the key [data]. *)
Definition no_id_record : record :=
  {| rec_recordId := None; rec_data := Some (str_of "YQliCWMJMQo=") |}.

Definition no_data_record : record :=
  {| rec_recordId := Some (str_of "r3"); rec_data := None |}.

(** A record whose payload is base64 of bytes that are no UTF-8. *)
Definition binary_record : InputRecord :=
  {| in_recordId := str_of "r4"; in_data := str_of "/w==" |}.

(** * Properties *)

(** ** The monad *)

Lemma value_bind_Return {A B} (m : M A) (f : A -> M B) (a : A) :
  value m = Return a -> value (bind m f) = value (f a).
Proof.
  destruct m as [l o]; simpl; intros ->; simpl.
  destruct (f a); reflexivity.
Qed.

Lemma value_bind_Raise {A B} (m : M A) (f : A -> M B) (e : exn) :
  value m = Raise e -> value (bind m f) = Raise e.
Proof. destruct m as [l o]; simpl; intros ->; reflexivity. Qed.

Lemma value_try_Return {A} (m : M A) (h : exn -> M A) (a : A) :
  value m = Return a -> value (try_except m h) = Return a.
Proof. destruct m as [l o]; simpl; intros ->; reflexivity. Qed.

Lemma value_try_Raise {A} (m : M A) (h : exn -> M A) (e : exn) :
  value m = Raise e -> value (try_except m h) = value (h e).
Proof.
  destruct m as [l o]; simpl; intros ->; simpl.
  destruct (h e); reflexivity.
Qed.

(** ** [strip] and blank lines *)

Lemma lstrip_blank (s : str) : blank s = true -> lstrip s = [].
Proof.
  induction s as [|c s IH]; simpl; [reflexivity|].
  intros H; apply andb_prop in H as [Hc Hs]; rewrite Hc; auto.
Qed.

Lemma lstrip_not_blank (s : str) :
  blank s = false -> exists c t, lstrip s = c :: t /\ isspace c = false.
Proof.
  induction s as [|c s IH]; simpl; [discriminate|].
  destruct (isspace c) eqn:Hc; simpl; [exact IH|].
  intros _; exists c, s; split; [reflexivity | exact Hc].
Qed.

Lemma blank_app (s t : str) : blank (s ++ t) = blank s && blank t.
Proof. apply forallb_app. Qed.

Lemma blank_rev (s : str) : blank (rev s) = blank s.
Proof.
  induction s as [|c s IH]; simpl; [reflexivity|].
  rewrite blank_app, IH; simpl. rewrite andb_true_r; apply andb_comm.
Qed.

(** The test [not line.strip()] of the loop is the blank-line test. *)
Lemma not_strip (s : str) : not_ (strip s) = blank s.
Proof.
  unfold strip, rstrip.
  destruct (blank s) eqn:Hb.
  - rewrite (lstrip_blank s Hb); reflexivity.
  - destruct (lstrip_not_blank s Hb) as (c & t & -> & Hc).
    assert (Hr : blank (rev (c :: t)) = false).
    { rewrite blank_rev; simpl; rewrite Hc; reflexivity. }
    destruct (lstrip_not_blank _ Hr) as (c' & t' & -> & _).
    simpl. destruct (rev t' ++ [c']) eqn:E; [|reflexivity].
    apply app_eq_nil in E as [_ E]; discriminate.
Qed.

(** ** The line loop *)

Lemma process_lines_cons (line : str) (rest : list str)
      (records : list (list str)) :
  process_lines (line :: rest) records =
  if not_ (strip line) then process_lines rest records
  else
    records' <-
      try_except
        (let cols := split DELIMITER line in
         if negb (Nat.eqb (length cols) (length CLICKSTREAM_LABELS))
         then logger (WarningMalformedLine line) ;;; ret records
         else ret (records ++ [cols]))
        (fun e => logger (ErrorProcessingLine line e) ;;; ret records) ;;
    process_lines rest records'.
Proof. reflexivity. Qed.

Lemma process_lines_value (lines : list str) (acc : list (list str)) :
  value (process_lines lines acc) = Return (acc ++ parsed_rows lines).
Proof.
  revert acc; induction lines as [|line rest IH]; intros acc.
  - simpl. rewrite app_nil_r; reflexivity.
  - rewrite process_lines_cons, not_strip.
    unfold parsed_rows, valid_line; simpl filter.
    change (length CLICKSTREAM_LABELS) with 4%nat.
    destruct (blank line); simpl negb; simpl andb; cbv iota.
    + apply IH.
    + cbv zeta.
      destruct (Nat.eqb (length (split DELIMITER line)) 4);
        simpl negb; cbv iota.
      * rewrite (value_bind_Return _ _ (acc ++ [split DELIMITER line]))
          by reflexivity.
        rewrite IH. simpl map. rewrite <- app_assoc. reflexivity.
      * rewrite (value_bind_Return _ _ acc) by reflexivity.
        rewrite IH. reflexivity.
Qed.

Lemma parsed_rows_width (lines : list str) :
  Forall (fun row => length row = 4%nat) (parsed_rows lines).
Proof.
  unfold parsed_rows. induction lines as [|l ls IH]; simpl; [constructor|].
  destruct (valid_line l) eqn:E; simpl; [|exact IH].
  constructor; [|exact IH].
  unfold valid_line in E. apply andb_prop in E as [_ E].
  apply Nat.eqb_eq in E. exact E.
Qed.

Lemma parsed_rows_app (l1 l2 : list str) :
  parsed_rows (l1 ++ l2) = parsed_rows l1 ++ parsed_rows l2.
Proof. unfold parsed_rows. rewrite filter_app, map_app. reflexivity. Qed.

(** ** UTF-8 *)

Ltac Zify.zify_post_hook ::= Z.to_euclidean_division_equations.

Lemma map_outcome_Return {A B} (f : A -> B) (o : outcome A) (b : B) :
  map_outcome f o = Return b -> exists a, o = Return a /\ b = f a.
Proof.
  destruct o as [a|e]; simpl; [|discriminate].
  intros H; injection H as <-; eauto.
Qed.

Lemma scalarb_small (c : N) : c < 55296 -> scalarb c = true.
Proof.
  intros H; unfold scalarb. apply orb_true_iff; left. apply N.ltb_lt; exact H.
Qed.

Lemma scalarb_large (c : N) : 57344 <= c <= 1114111 -> scalarb c = true.
Proof.
  intros [H1 H2]; unfold scalarb. apply orb_true_iff; right.
  apply andb_true_iff; split; apply N.leb_le; assumption.
Qed.

(** What [utf8_decode] returns holds Unicode scalar values only. *)
Lemma utf8_decode_scalar_fuel (n : nat) :
  forall (bs : bytes) (s : str),
    (length bs <= n)%nat -> utf8_decode bs = Return s -> scalar_text s.
Proof.
  induction n as [|n IH]; intros bs s Hlen H.
  - destruct bs; [|simpl in Hlen; lia].
    simpl in H; injection H as <-; constructor.
  - destruct bs as [|b0 r0]; [simpl in H; injection H as <-; constructor|].
    cbn [utf8_decode] in H.
    destruct (b0 <? 128) eqn:E1.
    { apply map_outcome_Return in H as (t & Ht & ->).
      apply N.ltb_lt in E1.
      constructor; [apply scalarb_small; lia|].
      apply (IH r0); [simpl in Hlen; lia | exact Ht]. }
    destruct (b0 <? 192); [discriminate|].
    destruct (b0 <? 224).
    { destruct r0 as [|b1 r1]; [discriminate|].
      cbv zeta in H.
      destruct (continuation b1 && _) eqn:C; [|discriminate].
      apply map_outcome_Return in H as (t & Ht & ->).
      constructor; [apply scalarb_small; lia|].
      apply (IH r1); [simpl in Hlen; lia | exact Ht]. }
    destruct (b0 <? 240).
    { destruct r0 as [|b1 [|b2 r2]]; try discriminate.
      cbv zeta in H.
      destruct (continuation b1 && _ && _ && _) eqn:C; [|discriminate].
      apply map_outcome_Return in H as (t & Ht & ->).
      apply andb_prop in C as [_ C].
      constructor; [exact C|].
      apply (IH r2); [simpl in Hlen; lia | exact Ht]. }
    destruct (b0 <? 248); [|discriminate].
    destruct r0 as [|b1 [|b2 [|b3 r3]]]; try discriminate.
    cbv zeta in H.
    destruct (continuation b1 && _ && _ && _ && _) eqn:C; [|discriminate].
    apply map_outcome_Return in H as (t & Ht & ->).
    apply andb_prop in C as [C C2]. apply andb_prop in C as [_ C1].
    apply N.leb_le in C1, C2.
    constructor; [apply scalarb_large; lia|].
    apply (IH r3); [simpl in Hlen; lia | exact Ht].
Qed.

Lemma utf8_decode_scalar (bs : bytes) (s : str) :
  utf8_decode bs = Return s -> scalar_text s.
Proof. apply (utf8_decode_scalar_fuel (length bs)); lia. Qed.

(** Settle a comparison of the goal by linear arithmetic. *)
Ltac settle_test :=
  match goal with
  | |- context [?a <? ?b] =>
      first [ replace (a <? b) with true by (symmetry; apply N.ltb_lt; lia)
            | replace (a <? b) with false by (symmetry; apply N.ltb_ge; lia) ]
  | |- context [?a <=? ?b] =>
      first [ replace (a <=? b) with true by (symmetry; apply N.leb_le; lia)
            | replace (a <=? b) with false by (symmetry; apply N.leb_gt; lia) ]
  end.

(** Decoding undoes the encoding of one code point. *)
Lemma utf8_decode_encode_char (c : N) (bs r : bytes) :
  utf8_encode_char c = Some bs ->
  utf8_decode (bs ++ r) = map_outcome (cons c) (utf8_decode r).
Proof.
  unfold utf8_encode_char.
  destruct (c <? 128) eqn:E1.
  { intros H. assert (Hbs : bs = [c]) by congruence. subst bs; clear H.
    change ([c] ++ r) with (c :: r).
    cbn [utf8_decode]. rewrite E1; reflexivity. }
  apply N.ltb_ge in E1.
  destruct (c <? 2048) eqn:E2.
  { apply N.ltb_lt in E2.
    intros H.
    assert (Hbs : bs = [192 + c / 64; 128 + c mod 64]) by congruence.
    subst bs; clear H.
    change ([192 + c / 64; 128 + c mod 64] ++ r)
      with (192 + c / 64 :: 128 + c mod 64 :: r).
    cbn [utf8_decode]; cbv zeta.
    replace ((192 + c / 64) mod 32 * 64 + (128 + c mod 64) mod 64) with c
      by lia.
    unfold continuation. repeat settle_test. reflexivity. }
  apply N.ltb_ge in E2.
  destruct (c <? 65536) eqn:E3.
  { apply N.ltb_lt in E3.
    destruct (scalarb c) eqn:Sc; [|discriminate].
    intros H.
    assert (Hbs : bs = [224 + c / 4096; 128 + (c / 64) mod 64;
                        128 + c mod 64]) by congruence.
    subst bs; clear H.
    change ([224 + c / 4096; 128 + (c / 64) mod 64; 128 + c mod 64] ++ r)
      with (224 + c / 4096 :: 128 + (c / 64) mod 64 :: 128 + c mod 64 :: r).
    cbn [utf8_decode]; cbv zeta.
    replace ((224 + c / 4096) mod 16 * 4096
             + (128 + (c / 64) mod 64) mod 64 * 64
             + (128 + c mod 64) mod 64) with c by lia.
    unfold continuation. rewrite Sc. repeat settle_test. reflexivity. }
  apply N.ltb_ge in E3.
  destruct (c <=? 1114111) eqn:E4; [|discriminate].
  apply N.leb_le in E4.
  intros H.
  assert (Hbs : bs = [240 + c / 262144; 128 + (c / 4096) mod 64;
                      128 + (c / 64) mod 64; 128 + c mod 64]) by congruence.
  subst bs; clear H.
  change ([240 + c / 262144; 128 + (c / 4096) mod 64;
           128 + (c / 64) mod 64; 128 + c mod 64] ++ r)
    with (240 + c / 262144 :: 128 + (c / 4096) mod 64
          :: 128 + (c / 64) mod 64 :: 128 + c mod 64 :: r).
  cbn [utf8_decode]; cbv zeta.
  replace ((240 + c / 262144) mod 8 * 262144
           + (128 + (c / 4096) mod 64) mod 64 * 4096
           + (128 + (c / 64) mod 64) mod 64 * 64
           + (128 + c mod 64) mod 64) with c by lia.
  unfold continuation. repeat settle_test. reflexivity.
Qed.

Lemma utf8_encode_char_scalar (c : N) :
  scalarb c = true ->
  exists bs, utf8_encode_char c = Some bs /\ all_bytes bs.
Proof.
  intros Sc. unfold utf8_encode_char.
  destruct (c <? 128) eqn:E1.
  { apply N.ltb_lt in E1. eexists; split; [reflexivity|].
    repeat constructor; lia. }
  destruct (c <? 2048) eqn:E2.
  { apply N.ltb_lt in E2. eexists; split; [reflexivity|].
    repeat constructor; lia. }
  destruct (c <? 65536) eqn:E3.
  { apply N.ltb_lt in E3. rewrite Sc. eexists; split; [reflexivity|].
    repeat constructor; lia. }
  unfold scalarb in Sc. apply N.ltb_ge in E3.
  apply orb_true_iff in Sc as [Sc|Sc]; [apply N.ltb_lt in Sc; lia|].
  apply andb_prop in Sc as [_ Sc]. rewrite Sc. apply N.leb_le in Sc.
  eexists; split; [reflexivity|]. repeat constructor; lia.
Qed.

(** Text of scalar values always encodes; the result is a byte string
    that decodes back to the text. *)
Lemma utf8_encode_scalar (s : str) :
  scalar_text s ->
  exists bs, utf8_encode s = Return bs /\ all_bytes bs
             /\ utf8_decode bs = Return s.
Proof.
  induction 1 as [|c s Hc _ (bs & Hbs & Hall & Hdec)].
  - exists []; repeat split; constructor.
  - destruct (utf8_encode_char_scalar c Hc) as (cs & Hcs & Hcall).
    exists (cs ++ bs). cbn [utf8_encode]. rewrite Hcs, Hbs.
    repeat split.
    + apply Forall_app; split; assumption.
    + rewrite (utf8_decode_encode_char c cs bs Hcs), Hdec. reflexivity.
Qed.

(** ASCII bytes decode to themselves. *)
Lemma utf8_decode_ascii (bs : bytes) :
  Forall (fun b => b < 128) bs -> utf8_decode bs = Return bs.
Proof.
  induction 1 as [|b bs Hb _ IH]; [reflexivity|].
  cbn [utf8_decode]. apply N.ltb_lt in Hb. rewrite Hb, IH. reflexivity.
Qed.

(** ** Base64 *)

Lemma sextets_complete (v : N) : v < 64 -> In v sextets.
Proof.
  intros H. unfold sextets. rewrite <- (N2Nat.id v).
  apply in_map, in_seq. lia.
Qed.

(** The two tables are inverse on 6-bit values, and the alphabet is
    ASCII and does not contain the pad character. *)
Lemma table_a2b_b2a (v : N) :
  v < 64 ->
  table_a2b_base64 (table_b2a_base64 v) = Some v
  /\ (table_b2a_base64 v =? BASE64_PAD) = false
  /\ table_b2a_base64 v < 128.
Proof.
  intros H.
  assert (Hall : forallb table_check sextets = true) by (vm_compute; reflexivity).
  rewrite forallb_forall in Hall.
  specialize (Hall v (sextets_complete v H)).
  unfold table_check in Hall.
  destruct (table_a2b_base64 (table_b2a_base64 v)) as [w|]; [|discriminate].
  apply andb_prop in Hall as [Hall H3]. apply andb_prop in Hall as [H1 H2].
  apply N.eqb_eq in H1. apply N.ltb_lt in H3.
  apply negb_true_iff in H2. subst w. auto.
Qed.

(** One step of the decoding loop on a character of the alphabet. *)
Lemma a2b_loop_data (v : N) (rest : bytes) (q l p : N) (bin : bytes) :
  v < 64 ->
  a2b_loop (table_b2a_base64 v :: rest) q l p bin =
  if q =? 0 then a2b_loop rest 1 v 0 bin
  else if q =? 1 then
    a2b_loop rest 2 (v mod 16) 0 (bin ++ [(l * 4 + v / 16) mod 256])
  else if q =? 2 then
    a2b_loop rest 3 (v mod 4) 0 (bin ++ [(l * 16 + v / 4) mod 256])
  else a2b_loop rest 0 0 0 (bin ++ [(l * 64 + v) mod 256]).
Proof.
  intros H. destruct (table_a2b_b2a v H) as (H1 & H2 & _).
  cbn [a2b_loop]. rewrite H2, H1. reflexivity.
Qed.

Lemma list_ind3 {A} (P : list A -> Prop) :
  P [] -> (forall a, P [a]) -> (forall a b, P [a; b]) ->
  (forall a b c r, P r -> P (a :: b :: c :: r)) ->
  forall l, P l.
Proof.
  intros H0 H1 H2 H3 l.
  assert (G : forall n l, (length l <= n)%nat -> P l).
  { induction n as [|n IH]; intros [|a [|b [|c r]]] Hl; auto.
    - simpl in Hl; lia.
    - apply H3, IH. simpl in Hl; lia. }
  apply (G (length l)); lia.
Qed.

(** A full group of three bytes, encoded, takes the loop from the start
    of a quad back to the start of a quad, having written the bytes. *)
Lemma a2b_loop_group (a b c : N) (rest : bytes) (l p : N) (bin : bytes) :
  a < 256 -> b < 256 -> c < 256 ->
  a2b_loop (table_b2a_base64 (a / 4)
            :: table_b2a_base64 ((a mod 4) * 16 + b / 16)
            :: table_b2a_base64 ((b mod 16) * 4 + c / 64)
            :: table_b2a_base64 (c mod 64) :: rest) 0 l p bin
  = a2b_loop rest 0 0 0 (bin ++ [a; b; c]).
Proof.
  intros Ha Hb Hc.
  rewrite a2b_loop_data by lia. change (0 =? 0) with true. cbv iota.
  rewrite a2b_loop_data by lia.
  change (1 =? 0) with false; change (1 =? 1) with true; cbv iota.
  rewrite a2b_loop_data by lia.
  change (2 =? 0) with false; change (2 =? 1) with false;
    change (2 =? 2) with true; cbv iota.
  rewrite a2b_loop_data by lia.
  change (3 =? 0) with false; change (3 =? 1) with false;
    change (3 =? 2) with false; cbv iota.
  replace ((a / 4 * 4 + (a mod 4 * 16 + b / 16) / 16) mod 256) with a by lia.
  replace (((a mod 4 * 16 + b / 16) mod 16 * 16
            + (b mod 16 * 4 + c / 64) / 4) mod 256) with b by lia.
  replace (((b mod 16 * 4 + c / 64) mod 4 * 64 + c mod 64) mod 256)
    with c by lia.
  rewrite <- !app_assoc. reflexivity.
Qed.

(** Decoding undoes encoding, whatever was decoded before. *)
Lemma a2b_loop_b2a (bin0 : bytes) :
  all_bytes bin0 ->
  forall (l p : N) (bin : bytes),
    a2b_loop (b2a_base64 bin0) 0 l p bin = Return (bin ++ bin0).
Proof.
  induction bin0 as [|a|a b|a b c r IH] using list_ind3; intros Hall l p bin.
  - cbn. rewrite app_nil_r. reflexivity.
  - apply Forall_inv in Hall.
    cbn [b2a_base64].
    rewrite a2b_loop_data by lia. change (0 =? 0) with true. cbv iota.
    rewrite a2b_loop_data by lia.
    change (1 =? 0) with false; change (1 =? 1) with true; cbv iota.
    replace ((a / 4 * 4 + a mod 4 * 16 / 16) mod 256) with a by lia.
    reflexivity.
  - pose proof (Forall_inv Hall) as Ha.
    pose proof (Forall_inv (Forall_inv_tail Hall)) as Hb. cbv beta in Ha, Hb.
    cbn [b2a_base64].
    rewrite a2b_loop_data by lia. change (0 =? 0) with true. cbv iota.
    rewrite a2b_loop_data by lia.
    change (1 =? 0) with false; change (1 =? 1) with true; cbv iota.
    rewrite a2b_loop_data by lia.
    change (2 =? 0) with false; change (2 =? 1) with false;
      change (2 =? 2) with true; cbv iota.
    replace ((a / 4 * 4 + (a mod 4 * 16 + b / 16) / 16) mod 256)
      with a by lia.
    replace (((a mod 4 * 16 + b / 16) mod 16 * 16 + b mod 16 * 4 / 4) mod 256)
      with b by lia.
    rewrite <- !app_assoc. reflexivity.
  - pose proof (Forall_inv Hall) as Ha.
    pose proof (Forall_inv (Forall_inv_tail Hall)) as Hb.
    pose proof (Forall_inv (Forall_inv_tail (Forall_inv_tail Hall))) as Hc.
    cbv beta in Ha, Hb, Hc.
    cbn [b2a_base64].
    rewrite a2b_loop_group by assumption.
    rewrite IH by (apply Forall_inv_tail, Forall_inv_tail, Forall_inv_tail
                   in Hall; exact Hall).
    rewrite <- app_assoc. reflexivity.
Qed.

(** What [b2a_base64] writes is ASCII. *)
Lemma b2a_base64_ascii (bin : bytes) :
  all_bytes bin -> Forall (fun ch => ch < 128) (b2a_base64 bin).
Proof.
  induction bin as [|a|a b|a b c r IH] using list_ind3; intros Hall.
  - constructor.
  - apply Forall_inv in Hall. cbn [b2a_base64].
    repeat constructor; try (apply table_a2b_b2a; lia); reflexivity.
  - pose proof (Forall_inv Hall) as Ha.
    pose proof (Forall_inv (Forall_inv_tail Hall)) as Hb. cbv beta in Ha, Hb.
    cbn [b2a_base64].
    repeat constructor; try (apply table_a2b_b2a; lia); reflexivity.
  - pose proof (Forall_inv Hall) as Ha.
    pose proof (Forall_inv (Forall_inv_tail Hall)) as Hb.
    pose proof (Forall_inv (Forall_inv_tail (Forall_inv_tail Hall))) as Hc.
    cbv beta in Ha, Hb, Hc.
    cbn [b2a_base64].
    repeat (constructor; [apply table_a2b_b2a; lia|]).
    apply IH. apply Forall_inv_tail, Forall_inv_tail, Forall_inv_tail in Hall.
    exact Hall.
Qed.

(** ** Text that stays encodable *)

Section Preserved.

Variable P : N -> Prop.
Hypothesis P_comma : P COMMA.
Hypothesis P_quote : P DQUOTE.
Hypothesis P_lf : P LF.

Lemma split_Forall (sep : N) (s : str) :
  Forall P s -> Forall (Forall P) (split sep s).
Proof.
  induction 1 as [|c s Hc _ IH]; simpl.
  - repeat constructor.
  - destruct (c =? sep); [constructor; [constructor | exact IH]|].
    destruct (split sep s) as [|h t]; [repeat constructor; exact Hc|].
    constructor.
    + constructor; [exact Hc | exact (Forall_inv IH)].
    + exact (Forall_inv_tail IH).
Qed.

Lemma parsed_rows_Forall (lines : list str) :
  Forall (Forall P) lines -> Forall (Forall (Forall P)) (parsed_rows lines).
Proof.
  unfold parsed_rows. induction 1 as [|l ls Hl _ IH]; simpl; [constructor|].
  destruct (valid_line l); simpl; [|exact IH].
  constructor; [apply split_Forall; exact Hl | exact IH].
Qed.

Lemma csv_field_Forall (f : str) : Forall P f -> Forall P (csv_field f).
Proof.
  intros H. unfold csv_field. destruct (existsb csv_special f); [|exact H].
  constructor; [exact P_quote|].
  apply Forall_app; split; [|repeat constructor; exact P_quote].
  induction H as [|c f Hc _ IH]; simpl; [constructor|].
  apply Forall_app; split; [|exact IH].
  unfold csv_escape. destruct (c =? DQUOTE); repeat constructor; auto.
Qed.

Lemma join_Forall (sep : str) (parts : list str) :
  Forall P sep -> Forall (Forall P) parts -> Forall P (join sep parts).
Proof.
  intros Hsep. induction 1 as [|p ps Hp Hps IH]; simpl; [constructor|].
  destruct ps as [|q qs]; [exact Hp|].
  apply Forall_app; split; [exact Hp|].
  apply Forall_app; split; [exact Hsep | exact IH].
Qed.

Lemma csv_row_Forall (row : list str) :
  Forall (Forall P) row -> Forall P (csv_row row).
Proof.
  intros H.
  assert (G : Forall P (join [COMMA] (map csv_field row) ++ [LF])).
  { apply Forall_app; split; [|repeat constructor; exact P_lf].
    apply join_Forall; [repeat constructor; exact P_comma|].
    induction H; simpl; constructor; auto using csv_field_Forall. }
  unfold csv_row. destruct row as [|[|c f] [|g row]]; try exact G.
  repeat constructor; auto.
Qed.

Lemma csv_rows_Forall (rows : list (list str)) :
  Forall (Forall (Forall P)) rows -> Forall P (concat (map csv_row rows)).
Proof.
  induction 1 as [|row rows Hrow _ IH]; simpl; [constructor|].
  apply Forall_app; split; [apply csv_row_Forall; exact Hrow | exact IH].
Qed.

End Preserved.

(** ** [process_record] *)

Lemma csv_body_scalar (text : str) :
  scalar_text text -> scalar_text (csv_body text).
Proof.
  intros H. unfold csv_body, scalar_text.
  apply csv_rows_Forall; try reflexivity.
  apply parsed_rows_Forall, split_Forall. exact H.
Qed.

Lemma pd_DataFrame_rows (rows : list (list str)) :
  Forall (fun row => length row = 4%nat) rows ->
  pd_DataFrame rows CLICKSTREAM_LABELS =
  Return {| df_columns := CLICKSTREAM_LABELS; df_values := rows |}.
Proof.
  intros H. unfold pd_DataFrame.
  replace (forallb _ rows) with true; [reflexivity|].
  symmetry. apply forallb_forall. rewrite Forall_forall in H.
  intros row Hin. rewrite (H row Hin). reflexivity.
Qed.

(** The [try] block on a record whose payload decodes: it returns, with
    result [Ok] and the base64 form of the encoded CSV text. *)
Lemma process_record_try_decoded (r : record) (rid : str) (raw : bytes)
      (text : str) :
  rec_recordId r = Some rid ->
  b64decode (rec_data r) = Return raw ->
  utf8_decode raw = Return text ->
  exists body,
    utf8_encode (csv_body text) = Return body /\ all_bytes body
    /\ utf8_decode body = Return (csv_body text)
    /\ value (process_record_try r) =
       Return {| out_recordId := rid; result := Ok;
                 out_data := b64encode body |}.
Proof.
  intros Hrid Hraw Htext.
  destruct (utf8_encode_scalar (csv_body text)) as (body & Hbody & Hall & Hback).
  { apply csv_body_scalar, (utf8_decode_scalar raw); exact Htext. }
  exists body; repeat split; try assumption.
  unfold process_record_try.
  rewrite (value_bind_Return _ _ raw) by exact Hraw.
  rewrite (value_bind_Return _ _ text) by exact Htext.
  rewrite Hrid.
  rewrite (value_bind_Return _ _ rid) by reflexivity.
  rewrite (value_bind_Return _ _ tt) by reflexivity.
  cbv zeta.
  rewrite (value_bind_Return _ _ (parsed_rows (split LF text)))
    by apply process_lines_value.
  rewrite (value_bind_Return _ _ {| df_columns := CLICKSTREAM_LABELS;
                                    df_values := parsed_rows (split LF text) |})
    by (apply pd_DataFrame_rows, parsed_rows_width).
  rewrite (value_bind_Return _ _ body) by exact Hbody.
  rewrite (value_bind_Return _ _ (b64encode body))
    by (apply utf8_decode_ascii, b2a_base64_ascii; exact Hall).
  reflexivity.
Qed.

Lemma value_bind_inv {A B} (m : M A) (f : A -> M B) (b : B) :
  value (bind m f) = Return b ->
  exists a, value m = Return a /\ value (f a) = Return b.
Proof.
  destruct m as [l [a|e]]; simpl.
  - destruct (f a) as [l' o] eqn:E; simpl. intros ->.
    exists a; split; [reflexivity | rewrite E; reflexivity].
  - discriminate.
Qed.

Lemma value_bind_Raise_inv {A B} (m : M A) (f : A -> M B) (e : exn) :
  value (bind m f) = Raise e ->
  value m = Raise e \/ exists a, value m = Return a /\ value (f a) = Raise e.
Proof.
  destruct m as [l [a|e0]]; simpl.
  - destruct (f a) as [l' o] eqn:E; simpl. intros ->.
    right; exists a; split; [reflexivity | rewrite E; reflexivity].
  - intros H; left. injection H as <-. reflexivity.
Qed.

Lemma value_try_inv {A} (m : M A) (h : exn -> M A) (o : outcome A) :
  value (try_except m h) = o ->
  (exists a, value m = Return a /\ o = Return a)
  \/ (exists e, value m = Raise e /\ value (h e) = o).
Proof.
  destruct m as [l [a|e]]; simpl.
  - intros <-. left; eauto.
  - destruct (h e) as [l' o'] eqn:E; simpl. intros <-.
    right; exists e; split; [reflexivity | rewrite E; reflexivity].
Qed.

Lemma getitem_Return (key : string) (v : option str) (s : str) :
  value (getitem key v) = Return s -> v = Some s.
Proof. destruct v; simpl; [congruence | discriminate]. Qed.

(** What the [try] block returns, when it returns. *)
Lemma process_record_try_Return (r : record) (out : OutputRecord) :
  value (process_record_try r) = Return out ->
  rec_recordId r = Some (out_recordId out) /\ result out = Ok.
Proof.
  unfold process_record_try. intros H.
  do 4 (apply value_bind_inv in H as (? & _ & H)).
  cbv zeta in H.
  do 4 (apply value_bind_inv in H as (? & _ & H)).
  apply value_bind_inv in H as (rid & Hrid & H).
  apply getitem_Return in Hrid.
  simpl in H. injection H as <-. simpl. auto.
Qed.

(** The [except] block: it returns the original payload when both keys
    are there, and raises [KeyError] itself otherwise. *)
Lemma process_record_except_value (r : record) (e : exn) :
  value (process_record_except r e) =
  match rec_recordId r, rec_data r with
  | Some rid, Some d =>
      Return {| out_recordId := rid; result := ProcessingFailed;
                out_data := d |}
  | Some _, None => Raise (KeyError "data")
  | None, _ => Raise (KeyError "recordId")
  end.
Proof.
  unfold process_record_except.
  destruct (rec_recordId r) as [rid|], (rec_data r) as [d|]; reflexivity.
Qed.

Lemma process_record_Return (r : record) (out : OutputRecord) :
  value (process_record r) = Return out ->
  rec_recordId r = Some (out_recordId out)
  /\ (result out = Ok
      \/ (result out = ProcessingFailed
          /\ rec_data r = Some (out_data out)
          /\ exists e, value (process_record_try r) = Raise e)).
Proof.
  unfold process_record. intros H.
  apply value_try_inv in H as [(a & Ha & E)|(e & He & H)].
  - injection E as <-. apply process_record_try_Return in Ha as [H1 H2]. auto.
  - rewrite process_record_except_value in H.
    destruct (rec_recordId r) as [rid|], (rec_data r) as [d|];
      try discriminate.
    injection H as <-. simpl. split; [reflexivity|]. right. eauto.
Qed.

(** An exception leaves [process_record] only from its [except] block,
    as a [KeyError]. *)
Lemma process_record_Raise (r : record) (e : exn) :
  value (process_record r) = Raise e -> exists key, e = KeyError key.
Proof.
  unfold process_record. intros H.
  apply value_try_inv in H as [(a & _ & E)|(e0 & _ & H)]; [discriminate|].
  rewrite process_record_except_value in H.
  destruct (rec_recordId r) as [rid|], (rec_data r) as [d|];
    try discriminate; injection H as <-; eauto.
Qed.

(** On a record with both keys, [process_record] returns. *)
Lemma process_record_returns (r : InputRecord) :
  exists out, value (process_record (as_dict r)) = Return out
              /\ out_recordId out = in_recordId r.
Proof.
  unfold process_record.
  destruct (value (process_record_try (as_dict r))) as [a|e] eqn:T.
  - exists a. rewrite (value_try_Return _ _ a T). split; [reflexivity|].
    apply process_record_try_Return in T as [T _].
    simpl in T. congruence.
  - rewrite (value_try_Raise _ _ e T), process_record_except_value. simpl.
    eexists; split; reflexivity.
Qed.

(** ** [handler] *)

Lemma handler_loop_cons (r : record) (rest : list record)
      (response : list OutputRecord) :
  handler_loop (r :: rest) response =
  processed_record <- process_record r ;;
  handler_loop rest (response ++ [processed_record]).
Proof. reflexivity. Qed.

Lemma handler_loop_Return (rs : list record) :
  forall (response outs : list OutputRecord),
    value (handler_loop rs response) = Return outs ->
    exists news, outs = response ++ news /\ Forall2 same_recordId rs news.
Proof.
  induction rs as [|r rest IH]; intros response outs H.
  - simpl in H. injection H as <-. exists []. rewrite app_nil_r.
    split; [reflexivity | constructor].
  - rewrite handler_loop_cons in H.
    apply value_bind_inv in H as (o & Ho & H).
    apply IH in H as (news & -> & Hnews).
    exists (o :: news). rewrite <- app_assoc. split; [reflexivity|].
    constructor; [|exact Hnews].
    apply process_record_Return in Ho as [Ho _]. exact Ho.
Qed.

Lemma handler_loop_returns (rs : list InputRecord) :
  forall response : list OutputRecord,
    exists outs, value (handler_loop (map as_dict rs) response) = Return outs.
Proof.
  induction rs as [|r rest IH]; intros response; simpl map.
  - exists response. reflexivity.
  - rewrite handler_loop_cons.
    destruct (process_record_returns r) as (o & Ho & _).
    rewrite (value_bind_Return _ _ o Ho). apply IH.
Qed.

Lemma handler_loop_Raise (rs : list record) :
  forall (response : list OutputRecord) (e : exn),
    value (handler_loop rs response) = Raise e -> exists key, e = KeyError key.
Proof.
  induction rs as [|r rest IH]; intros response e H.
  - discriminate.
  - rewrite handler_loop_cons in H.
    apply value_bind_Raise_inv in H as [H|(o & _ & H)].
    + apply process_record_Raise in H. exact H.
    + apply IH in H. exact H.
Qed.

(** [handler] once the configuration check has passed. *)
Lemma handler_configured (c : N) (b : str) (event : Event) (context : unit) :
  handler (Some (c :: b)) event context =
  (rs <- handler_loop (event_records event) [] ;;
   logger (InfoProcessed (length rs)) ;;;
   ret {| records := rs |}).
Proof.
  unfold handler, validate_environment_variables, event_records.
  unfold bind at 1. unfold ret at 1.
  destruct (bind (handler_loop _ _) _); reflexivity.
Qed.

(** ** Failure and success of a record *)

Lemma undecodable_fails (r : InputRecord) :
  undecodable (in_data r) = true -> processing_fails (as_dict r).
Proof.
  unfold undecodable, processing_fails, process_record_try. simpl rec_data.
  destruct (b64decode (Some (in_data r))) as [raw|e] eqn:E1.
  - destruct (utf8_decode raw) as [t|e] eqn:E2; [discriminate|].
    intros _. exists e.
    rewrite (value_bind_Return _ _ raw) by reflexivity.
    apply value_bind_Raise. exact E2.
  - intros _. exists e. apply value_bind_Raise. reflexivity.
Qed.

(** When the [try] block raises on a record with both keys, the
    [except] block returns the record unchanged, marked as failed. *)
Lemma process_record_failed (r : InputRecord) :
  processing_fails (as_dict r) ->
  value (process_record (as_dict r)) =
  Return {| out_recordId := in_recordId r; result := ProcessingFailed;
            out_data := in_data r |}.
Proof.
  intros (e & He). unfold process_record.
  rewrite (value_try_Raise _ _ e He), process_record_except_value.
  reflexivity.
Qed.

Lemma process_record_decoded (r : record) (rid : str) (raw : bytes)
      (text : str) :
  rec_recordId r = Some rid ->
  b64decode (rec_data r) = Return raw ->
  utf8_decode raw = Return text ->
  exists body,
    utf8_encode (csv_body text) = Return body /\ all_bytes body
    /\ utf8_decode body = Return (csv_body text)
    /\ value (process_record r) =
       Return {| out_recordId := rid; result := Ok;
                 out_data := b64encode body |}.
Proof.
  intros Hrid Hraw Htext.
  destruct (process_record_try_decoded r rid raw text Hrid Hraw Htext)
    as (body & H1 & H2 & H3 & H4).
  exists body; repeat split; try assumption.
  unfold process_record. apply value_try_Return. exact H4.
Qed.

(** Decoding what [b64encode] wrote gives the bytes back. *)
Lemma b64decode_b64encode (bin : bytes) :
  all_bytes bin -> b64decode (Some (b64encode bin)) = Return bin.
Proof.
  intros H. unfold b64decode, b64encode.
  replace (forallb (fun c => c <? 128) (b2a_base64 bin)) with true.
  - unfold a2b_base64. rewrite (a2b_loop_b2a bin H). reflexivity.
  - symmetry. apply forallb_forall.
    pose proof (b2a_base64_ascii bin H) as Hascii.
    rewrite Forall_forall in Hascii.
    intros c Hc. apply N.ltb_lt, Hascii, Hc.
Qed.

(** Two payloads with the same kept rows give the same output. *)
Lemma process_record_same_rows (r1 r2 : InputRecord) (raw1 raw2 : bytes)
      (text1 text2 : str) :
  in_recordId r1 = in_recordId r2 ->
  b64decode (Some (in_data r1)) = Return raw1 ->
  utf8_decode raw1 = Return text1 ->
  b64decode (Some (in_data r2)) = Return raw2 ->
  utf8_decode raw2 = Return text2 ->
  parsed_rows (split LF text1) = parsed_rows (split LF text2) ->
  value (process_record (as_dict r1)) = value (process_record (as_dict r2)).
Proof.
  intros Hid Hr1 Ht1 Hr2 Ht2 Hrows.
  destruct (process_record_decoded (as_dict r1) _ raw1 text1 eq_refl Hr1 Ht1)
    as (b1 & Hb1 & _ & _ & ->).
  destruct (process_record_decoded (as_dict r2) _ raw2 text2 eq_refl Hr2 Ht2)
    as (b2 & Hb2 & _ & _ & ->).
  unfold csv_body in Hb1, Hb2. rewrite Hrows in Hb1.
  rewrite Hb1 in Hb2. injection Hb2 as ->. rewrite Hid. reflexivity.
Qed.

Lemma parsed_rows_drop (l1 l2 : list str) (line : str) :
  valid_line line = false ->
  parsed_rows (l1 ++ line :: l2) = parsed_rows (l1 ++ l2).
Proof.
  intros H. rewrite !parsed_rows_app. f_equal.
  unfold parsed_rows. simpl. rewrite H. reflexivity.
Qed.

Lemma parsed_rows_none (lines : list str) :
  Forall (fun l => valid_line l = false) lines -> parsed_rows lines = [].
Proof.
  unfold parsed_rows. induction 1 as [|l ls Hl _ IH]; simpl; [reflexivity|].
  rewrite Hl. exact IH.
Qed.

(** ** The shape of the CSV text *)

Lemma csv_row_four (row : list str) :
  length row = 4%nat -> csv_row row = csv_line row.
Proof.
  destruct row as [|a [|b [|c [|d [|e row]]]]]; try discriminate.
  intros _. destruct a; reflexivity.
Qed.

Lemma csv_rows_lines (rows : list (list str)) :
  Forall (fun row => length row = 4%nat) rows ->
  concat (map csv_row rows) = concat (map csv_line rows).
Proof.
  induction 1 as [|row rows H _ IH]; simpl; [reflexivity|].
  rewrite (csv_row_four row H), IH. reflexivity.
Qed.

Lemma csv_body_lines (text : str) :
  csv_body text =
  concat (map csv_line
              (map (split DELIMITER) (filter valid_line (split LF text)))).
Proof. unfold csv_body. apply csv_rows_lines, parsed_rows_width. Qed.

Lemma csv_field_plain (f : str) : plain f = true -> csv_field f = f.
Proof.
  unfold plain, csv_field. intros H. apply negb_true_iff in H.
  rewrite H. reflexivity.
Qed.

Lemma csv_lines_plain (rows : list (list str)) :
  Forall (Forall (fun f => plain f = true)) rows ->
  concat (map csv_line rows) =
  concat (map (fun row => join [COMMA] row ++ [LF]) rows).
Proof.
  induction 1 as [|row rows H _ IH]; simpl; [reflexivity|].
  rewrite IH. f_equal. unfold csv_line. f_equal. f_equal.
  induction H as [|f fs Hf _ IHf]; simpl; [reflexivity|].
  rewrite (csv_field_plain f Hf), IHf. reflexivity.
Qed.

Lemma count_lf_app (s t : str) : count_lf (s ++ t) = (count_lf s + count_lf t)%nat.
Proof. apply count_occ_app. Qed.

Lemma count_lf_none (s : str) : Forall (fun c => c <> LF) s -> count_lf s = 0%nat.
Proof.
  intros H. apply count_occ_not_In. rewrite Forall_forall in H.
  intros Hin. exact (H LF Hin eq_refl).
Qed.

(** The pieces [split] returns do not contain the separator. *)
Lemma split_no_sep (sep : N) (s : str) :
  Forall (Forall (fun c => c <> sep)) (split sep s).
Proof.
  induction s as [|c s IH]; simpl; [repeat constructor|].
  destruct (c =? sep) eqn:E; [constructor; [constructor | exact IH]|].
  apply N.eqb_neq in E.
  destruct (split sep s) as [|h t]; [repeat constructor; exact E|].
  constructor.
  - constructor; [exact E | exact (Forall_inv IH)].
  - exact (Forall_inv_tail IH).
Qed.

Lemma csv_line_one_lf (row : list str) :
  Forall (Forall (fun c => c <> LF)) row -> count_lf (csv_line row) = 1%nat.
Proof.
  intros H. unfold csv_line. rewrite count_lf_app.
  rewrite count_lf_none; [reflexivity|].
  apply join_Forall; [repeat constructor; discriminate|].
  induction H as [|f fs Hf _ IH]; simpl; constructor; [|exact IH].
  apply csv_field_Forall; [discriminate | exact Hf].
Qed.

(** The CSV text of a payload has one line feed per kept line. *)
Lemma csv_body_count (text : str) :
  count_lf (csv_body text) = length (filter valid_line (split LF text)).
Proof.
  rewrite csv_body_lines.
  pose proof (split_no_sep LF text) as H.
  induction H as [|l ls Hl _ IH]; simpl; [reflexivity|].
  destruct (valid_line l); simpl; [|exact IH].
  rewrite count_lf_app, IH, csv_line_one_lf; [reflexivity|].
  apply split_Forall. exact Hl.
Qed.

(** * The claims *)

(** C2. A record whose [data] decodes (base64, then UTF-8) to a text
    with N valid lines -- non-blank lines of exactly four tab-separated
    fields -- is returned with result [Ok] and its [recordId], and its
    output [data] base64-decodes to the UTF-8 form of exactly those N
    lines, in their order, each written as its four fields joined by
    commas (a field holding a comma or a double quote is quoted by the
    CSV writer) and ended by a line feed; the text has N line feeds;
    when no field needs quoting, each line is the plain comma-join of
    its fields. *)
Theorem process_record_well_formed (r : InputRecord) (raw : bytes)
        (text : str) :
  b64decode (Some (in_data r)) = Return raw ->
  utf8_decode raw = Return text ->
  let rows := map (split DELIMITER) (filter valid_line (split LF text)) in
  exists (out : OutputRecord) (body : bytes) (csv : str),
    value (process_record (as_dict r)) = Return out
    /\ out_recordId out = in_recordId r
    /\ result out = Ok
    /\ b64decode (Some (out_data out)) = Return body
    /\ utf8_decode body = Return csv
    /\ csv = concat (map (fun row => join [COMMA] (map csv_field row) ++ [LF])
                         rows)
    /\ count_lf csv = length rows
    /\ (Forall (Forall (fun f => plain f = true)) rows ->
        csv = concat (map (fun row => join [COMMA] row ++ [LF]) rows)).
Proof.
  intros Hraw Htext rows.
  destruct (process_record_decoded (as_dict r) (in_recordId r) raw text
                                   eq_refl Hraw Htext)
    as (body & Henc & Hall & Hdec & Hval).
  exists {| out_recordId := in_recordId r; result := Ok;
            out_data := b64encode body |}, body, (csv_body text).
  repeat split; try assumption.
  - cbn [out_data]. apply b64decode_b64encode. exact Hall.
  - apply csv_body_lines.
  - rewrite csv_body_count. unfold rows. rewrite length_map. reflexivity.
  - intros Hplain. rewrite csv_body_lines. apply csv_lines_plain. exact Hplain.
Qed.

(** The scenario of C2: the payload [a\tb\tc\t1\nx\ty\tz\t2\n] comes
    back as [a,b,c,1\nx,y,z,2\n]. *)
Lemma process_record_well_formed_scenario :
  exists (out : OutputRecord) (body : bytes),
    value (process_record (as_dict scenario_record)) = Return out
    /\ result out = Ok
    /\ b64decode (Some (out_data out)) = Return body
    /\ utf8_decode body =
       Return (str_of "a,b,c,1" ++ [LF] ++ str_of "x,y,z,2" ++ [LF]).
Proof.
  destruct (process_record_well_formed scenario_record scenario_text
              scenario_text eq_refl eq_refl)
    as (out & body & csv & H1 & _ & H3 & H4 & H5 & H6 & _).
  exists out, body. repeat split; try assumption.
  rewrite H5, H6. reflexivity.
Defined.

(** C3, as amended. When processing a record fails -- the [try] block
    raises; in particular when [b64decode] rejects [data] or the bytes
    it returns are no valid UTF-8 -- [process_record] returns the
    record's [recordId], result [ProcessingFailed], and as [data] the
    input [data] itself, unchanged. *)
Theorem process_record_failure_keeps_data (r : InputRecord) :
  processing_fails (as_dict r) \/ undecodable (in_data r) = true ->
  value (process_record (as_dict r)) =
  Return {| out_recordId := in_recordId r; result := ProcessingFailed;
            out_data := in_data r |}.
Proof.
  intros [H|H]; apply process_record_failed; [exact H|].
  apply undecodable_fails. exact H.
Qed.

Lemma process_record_failure_keeps_data_witness :
  value (process_record (as_dict broken_record)) =
  Return {| out_recordId := str_of "r2"; result := ProcessingFailed;
            out_data := str_of "ab" |}.
Proof.
  apply (process_record_failure_keeps_data broken_record).
  right. reflexivity.
Defined.

(** C3, as stated, fails on a [data] that is no valid base64 and that
    [b64decode] accepts all the same.  No character of [!!!!] belongs to
    the base64 alphabet; the decoder discards them all and returns zero
    bytes, and the record comes back with result [Ok] and an empty
    [data], not with [ProcessingFailed] and its input [data]. *)
Lemma invalid_base64_accepted :
  Forall (fun ch => table_a2b_base64 ch = None /\ ch <> BASE64_PAD)
         (in_data (record_with "!!!!"))
  /\ b64decode (Some (in_data (record_with "!!!!"))) = Return []
  /\ value (process_record (as_dict (record_with "!!!!")))
     = Return {| out_recordId := str_of "r1"; result := Ok; out_data := [] |}
  /\ value (process_record (as_dict (record_with "!!!!")))
     <> Return {| out_recordId := str_of "r1"; result := ProcessingFailed;
                  out_data := str_of "!!!!" |}.
Proof.
  split; [repeat constructor; discriminate|].
  split; [reflexivity|].
  split; [reflexivity | discriminate].
Qed.

(** C4. On every input record, [process_record] returns an
    OutputRecord: no exception leaves it.  The record returned has
    result [ProcessingFailed] exactly when processing failed. *)
Theorem process_record_never_raises (r : InputRecord) :
  exists out : OutputRecord,
    value (process_record (as_dict r)) = Return out
    /\ (result out = ProcessingFailed <-> processing_fails (as_dict r)).
Proof.
  destruct (value (process_record_try (as_dict r))) as [a|e] eqn:T.
  - exists a. unfold process_record. rewrite (value_try_Return _ _ a T).
    split; [reflexivity|].
    apply process_record_try_Return in T as Hok. destruct Hok as [_ Hok].
    split.
    + rewrite Hok. discriminate.
    + intros (e & He). unfold value in T, He |- *. congruence.
  - exists {| out_recordId := in_recordId r; result := ProcessingFailed;
              out_data := in_data r |}.
    split.
    + apply process_record_failed. exists e. exact T.
    + split; [intros _; exists e; exact T | reflexivity].
Qed.

(** C10. A record that has a [recordId] and whose [data] decodes
    (base64, then UTF-8) is returned with result [Ok], whatever the
    decoded text is: the [except] block does not run, [process_record]
    is its [try] block. *)
Theorem process_record_decodable_ok (r : record) (rid : str) (raw : bytes)
        (text : str) :
  rec_recordId r = Some rid ->
  b64decode (rec_data r) = Return raw ->
  utf8_decode raw = Return text ->
  process_record r = process_record_try r
  /\ ~ processing_fails r
  /\ exists out : OutputRecord,
       value (process_record r) = Return out /\ result out = Ok.
Proof.
  intros Hrid Hraw Htext.
  destruct (process_record_try_decoded r rid raw text Hrid Hraw Htext)
    as (body & _ & _ & _ & Hval).
  repeat split.
  - unfold process_record, try_except.
    destruct (process_record_try r) as [l [a|e]]; [reflexivity|].
    discriminate Hval.
  - intros (e & He). rewrite Hval in He. discriminate.
  - exists {| out_recordId := rid; result := Ok; out_data := b64encode body |}.
    split; [|reflexivity].
    unfold process_record. apply value_try_Return. exact Hval.
Qed.

Lemma process_record_decodable_ok_witness :
  process_record (as_dict scenario_record)
  = process_record_try (as_dict scenario_record)
  /\ ~ processing_fails (as_dict scenario_record)
  /\ exists out : OutputRecord,
       value (process_record (as_dict scenario_record)) = Return out
       /\ result out = Ok.
Proof.
  apply (process_record_decodable_ok (as_dict scenario_record) (str_of "r1")
           scenario_text scenario_text); reflexivity.
Defined.

Lemma not_four_fields_invalid (line : str) :
  length (split DELIMITER line) <> 4%nat -> valid_line line = false.
Proof.
  intros H. unfold valid_line. apply andb_false_iff; right.
  apply Nat.eqb_neq. exact H.
Qed.

Lemma blank_invalid (line : str) : blank line = true -> valid_line line = false.
Proof. intros H. unfold valid_line. rewrite H. reflexivity. Qed.

(** A payload none of whose lines is kept gives the empty body. *)
Lemma process_record_no_rows (r : InputRecord) (raw : bytes) (text : str) :
  b64decode (Some (in_data r)) = Return raw ->
  utf8_decode raw = Return text ->
  parsed_rows (split LF text) = [] ->
  value (process_record (as_dict r)) =
  Return {| out_recordId := in_recordId r; result := Ok; out_data := [] |}.
Proof.
  intros Hraw Htext Hrows.
  destruct (process_record_decoded (as_dict r) _ raw text eq_refl Hraw Htext)
    as (body & Hbody & _ & _ & ->).
  unfold csv_body in Hbody. rewrite Hrows in Hbody.
  simpl in Hbody. injection Hbody as <-. reflexivity.
Qed.

(** C5. A line whose tab-split field count is not 4 is dropped: the
    output for a payload is the output for the payload without that
    line.  A record all of whose lines are such lines is returned with
    result [Ok] and an empty [data], which decodes to zero bytes. *)
Theorem malformed_lines_dropped :
  (forall (r1 r2 : InputRecord) (raw1 raw2 : bytes) (text1 text2 : str)
          (before after : list str) (line : str),
      in_recordId r1 = in_recordId r2 ->
      b64decode (Some (in_data r1)) = Return raw1 ->
      utf8_decode raw1 = Return text1 ->
      b64decode (Some (in_data r2)) = Return raw2 ->
      utf8_decode raw2 = Return text2 ->
      split LF text1 = before ++ line :: after ->
      split LF text2 = before ++ after ->
      length (split DELIMITER line) <> 4%nat ->
      value (process_record (as_dict r1)) = value (process_record (as_dict r2)))
  /\ (forall (r : InputRecord) (raw : bytes) (text : str),
         b64decode (Some (in_data r)) = Return raw ->
         utf8_decode raw = Return text ->
         Forall (fun line => length (split DELIMITER line) <> 4%nat)
                (split LF text) ->
         value (process_record (as_dict r)) =
         Return {| out_recordId := in_recordId r; result := Ok;
                   out_data := [] |}
         /\ b64decode (Some []) = Return []).
Proof.
  split.
  - intros r1 r2 raw1 raw2 text1 text2 before after line
           Hid Hr1 Ht1 Hr2 Ht2 Hl1 Hl2 Hbad.
    apply (process_record_same_rows r1 r2 raw1 raw2 text1 text2);
      try assumption.
    rewrite Hl1, Hl2. apply parsed_rows_drop, not_four_fields_invalid, Hbad.
  - intros r raw text Hraw Htext Hall. split; [|reflexivity].
    apply (process_record_no_rows r raw text Hraw Htext).
    apply parsed_rows_none.
    eapply Forall_impl; [|exact Hall].
    intros line. apply not_four_fields_invalid.
Qed.

(** The scenario [a\tb\tc\t1\nbadline\n]: the output is that of
    [a\tb\tc\t1\n]; and [badline\nx\ty\n] gives an empty body. *)
Lemma malformed_lines_dropped_witness :
  value (process_record (as_dict (record_with "YQliCWMJMQpiYWRsaW5lCg==")))
  = value (process_record (as_dict (record_with "YQliCWMJMQo=")))
  /\ value (process_record (as_dict (record_with "YmFkbGluZQp4CXkK")))
     = Return {| out_recordId := str_of "r1"; result := Ok; out_data := [] |}.
Proof.
  destruct malformed_lines_dropped as [Hdrop Hnone].
  split.
  - apply (Hdrop (record_with "YQliCWMJMQpiYWRsaW5lCg==")
                 (record_with "YQliCWMJMQo=")
                 (tsv [["a"; "b"; "c"; "1"]; ["badline"]]%string)
                 (tsv [["a"; "b"; "c"; "1"]]%string)
                 (tsv [["a"; "b"; "c"; "1"]; ["badline"]]%string)
                 (tsv [["a"; "b"; "c"; "1"]]%string)
                 [join [TAB] (map str_of ["a"; "b"; "c"; "1"]%string)]
                 [[]]
                 (str_of "badline")); try reflexivity.
    simpl; lia.
  - apply (Hnone (record_with "YmFkbGluZQp4CXkK")
                 (tsv [["badline"]; ["x"; "y"]]%string)
                 (tsv [["badline"]; ["x"; "y"]]%string));
      try reflexivity.
    repeat constructor; simpl; lia.
Defined.

(** C8. A line that is empty or made of white space only is skipped:
    the output for a payload is the output for the payload without that
    line.  This holds although such a line can split into exactly four
    fields, as the line of three tabs does, and although empty fields
    are kept on a line that is not blank. *)
Theorem blank_lines_skipped :
  (forall (r1 r2 : InputRecord) (raw1 raw2 : bytes) (text1 text2 : str)
          (before after : list str) (line : str),
      in_recordId r1 = in_recordId r2 ->
      b64decode (Some (in_data r1)) = Return raw1 ->
      utf8_decode raw1 = Return text1 ->
      b64decode (Some (in_data r2)) = Return raw2 ->
      utf8_decode raw2 = Return text2 ->
      split LF text1 = before ++ line :: after ->
      split LF text2 = before ++ after ->
      forallb isspace line = true ->
      value (process_record (as_dict r1)) = value (process_record (as_dict r2)))
  /\ (forallb isspace [TAB; TAB; TAB] = true
      /\ split DELIMITER [TAB; TAB; TAB] = [[]; []; []; []]
      /\ value (process_lines [[TAB; TAB; TAB]] []) = Return [])
  /\ value (process_lines [str_of "a" ++ [TAB; TAB; TAB]] [])
     = Return [[str_of "a"; []; []; []]].
Proof.
  split; [|repeat split].
  intros r1 r2 raw1 raw2 text1 text2 before after line
         Hid Hr1 Ht1 Hr2 Ht2 Hl1 Hl2 Hblank.
  apply (process_record_same_rows r1 r2 raw1 raw2 text1 text2);
    try assumption.
  rewrite Hl1, Hl2. apply parsed_rows_drop, blank_invalid, Hblank.
Qed.

(** The payload [a\tb\tc\t1\n\t\t\t\n] gives the output of
    [a\tb\tc\t1\n]. *)
Lemma blank_lines_skipped_witness :
  value (process_record (as_dict (record_with "YQliCWMJMQoJCQkK")))
  = value (process_record (as_dict (record_with "YQliCWMJMQo="))).
Proof.
  apply (proj1 blank_lines_skipped
           (record_with "YQliCWMJMQoJCQkK") (record_with "YQliCWMJMQo=")
           (tsv [["a"; "b"; "c"; "1"]]%string ++ [TAB; TAB; TAB; LF])
           (tsv [["a"; "b"; "c"; "1"]]%string)
           (tsv [["a"; "b"; "c"; "1"]]%string ++ [TAB; TAB; TAB; LF])
           (tsv [["a"; "b"; "c"; "1"]]%string)
           [join [TAB] (map str_of ["a"; "b"; "c"; "1"]%string)]
           [[]]
           [TAB; TAB; TAB]); reflexivity.
Defined.

Lemma same_recordId_map (rs : list record) (outs : list OutputRecord) :
  Forall2 same_recordId rs outs ->
  length outs = length rs
  /\ map (fun o => Some (out_recordId o)) outs = map rec_recordId rs.
Proof.
  induction 1 as [|r o rs outs H _ [IH1 IH2]]; simpl; [split; reflexivity|].
  unfold same_recordId in H. rewrite IH1, IH2, H. split; reflexivity.
Qed.

Lemma handler_unset (data_bucket : option str) (event : Event)
      (context : unit) :
  data_bucket = None \/ data_bucket = Some [] ->
  handler data_bucket event context =
  ([], Raise (ValueError "Environment variable DATA_BUCKET_NAME is not set.")).
Proof. intros [-> | ->]; reflexivity. Qed.

(** C1. Whenever [handler] returns, its response holds one output
    record per record of the event, in the same order, each with the
    [recordId] of the record at its position, whatever the result of the
    record is; and [handler] does return when the configuration value is
    set and every record of the event has its two keys. *)
Theorem handler_one_output_per_record (data_bucket : option str)
        (event : Event) (context : unit) :
  (forall response : Response,
      value (handler data_bucket event context) = Return response ->
      length (records response) = length (event_records event)
      /\ map (fun o => Some (out_recordId o)) (records response)
         = map rec_recordId (event_records event))
  /\ ((exists c b, data_bucket = Some (c :: b)) ->
      (exists rs, event_records event = map as_dict rs) ->
      exists response : Response,
        value (handler data_bucket event context) = Return response).
Proof.
  split.
  - intros response H.
    destruct data_bucket as [[|c b]|];
      try (rewrite handler_unset in H by auto; discriminate).
    rewrite handler_configured in H.
    apply value_bind_inv in H as (outs & Houts & H).
    apply value_bind_inv in H as (u & _ & H).
    simpl in H. injection H as <-. cbn [records].
    apply handler_loop_Return in Houts as (news & -> & Hnews).
    simpl app. apply same_recordId_map. exact Hnews.
  - intros (c & b & ->) (rs & Hrs).
    rewrite handler_configured, Hrs.
    destruct (handler_loop_returns rs []) as (outs & Houts).
    exists {| records := outs |}.
    rewrite (value_bind_Return _ _ outs Houts).
    rewrite (value_bind_Return _ _ tt) by reflexivity.
    reflexivity.
Qed.

(** A batch of a good and a broken record: two outputs, ids in order. *)
Lemma handler_one_output_per_record_witness :
  exists response : Response,
    value (handler (Some (str_of "bucket"))
                   (batch [scenario_record; broken_record]) tt)
    = Return response
    /\ length (records response) = 2%nat
    /\ map (fun o => Some (out_recordId o)) (records response)
       = [Some (str_of "r1"); Some (str_of "r2")].
Proof.
  destruct (handler_one_output_per_record
              (Some (str_of "bucket"))
              (batch [scenario_record; broken_record]) tt) as [Hpart Htotal].
  destruct Htotal as (response & Hresp).
  - exists 98, (str_of "ucket"). reflexivity.
  - exists [scenario_record; broken_record]. reflexivity.
  - exists response. split; [exact Hresp|].
    exact (Hpart response Hresp).
Defined.

(** C6. With the configuration value absent or empty, [handler] raises
    the configuration error, for every event, and has written no log
    line: no record has been processed.  With a non-empty value, no
    [ValueError] leaves [handler]. *)
Theorem handler_configuration_check (data_bucket : option str)
        (event : Event) (context : unit) :
  (data_bucket = None \/ data_bucket = Some [] ->
   handler data_bucket event context =
   ([], Raise (ValueError "Environment variable DATA_BUCKET_NAME is not set.")))
  /\ ((exists c b, data_bucket = Some (c :: b)) ->
      forall msg : string,
        value (handler data_bucket event context) <> Raise (ValueError msg)).
Proof.
  split; [apply handler_unset|].
  intros (c & b & ->) msg H.
  rewrite handler_configured in H.
  apply value_bind_Raise_inv in H as [H|(outs & _ & H)].
  - apply handler_loop_Raise in H as (key & H). discriminate.
  - apply value_bind_Raise_inv in H as [H|(u & _ & H)]; discriminate.
Qed.

Lemma handler_configuration_check_witness :
  handler None (batch [scenario_record]) tt =
  ([], Raise (ValueError "Environment variable DATA_BUCKET_NAME is not set."))
  /\ value (handler (Some (str_of "bucket")) (batch [scenario_record]) tt)
     <> Raise (ValueError "Environment variable DATA_BUCKET_NAME is not set.").
Proof.
  split.
  - apply (proj1 (handler_configuration_check None (batch [scenario_record]) tt)).
    left. reflexivity.
  - apply (proj2 (handler_configuration_check (Some (str_of "bucket"))
                                              (batch [scenario_record]) tt)).
    exists 98, (str_of "ucket"). reflexivity.
Defined.

(** C7, as amended. Encoding then decoding is the identity: for every
    byte string, [b64decode] of its [b64encode] returns it. *)
Theorem b64decode_after_b64encode (bin : bytes) :
  all_bytes bin -> b64decode (Some (b64encode bin)) = Return bin.
Proof. apply b64decode_b64encode. Qed.

Lemma b64decode_after_b64encode_witness :
  b64decode (Some (b64encode [0; 255; 16; 128])) = Return [0; 255; 16; 128].
Proof.
  apply (b64decode_after_b64encode [0; 255; 16; 128]).
  repeat constructor.
Defined.

(** C7, as stated, fails: [YR==] decodes to the byte [a], which encodes
    to [YQ==]; and [ab] does not decode at all. *)
Lemma b64encode_after_b64decode_differs :
  b64decode (Some (str_of "YR==")) = Return [97]
  /\ b64encode [97] = str_of "YQ=="
  /\ b64encode [97] <> str_of "YR=="
  /\ b64decode (Some (str_of "ab")) = Raise (BinasciiError "Incorrect padding").
Proof. repeat split. discriminate. Qed.

(** C9. For any two non-empty values of the configuration variable,
    [handler] does the same on the same event: same response or
    exception, same log lines. *)
Theorem handler_ignores_bucket_value (bucket1 bucket2 : str) (event : Event)
        (context : unit) :
  bucket1 <> [] -> bucket2 <> [] ->
  handler (Some bucket1) event context = handler (Some bucket2) event context.
Proof.
  intros H1 H2.
  destruct bucket1 as [|c1 b1]; [contradiction|].
  destruct bucket2 as [|c2 b2]; [contradiction|].
  rewrite !handler_configured. reflexivity.
Qed.

Lemma handler_ignores_bucket_value_witness :
  handler (Some (str_of "bucket-a")) (batch [scenario_record; broken_record]) tt
  = handler (Some (str_of "other")) (batch [scenario_record; broken_record]) tt.
Proof.
  apply (handler_ignores_bucket_value (str_of "bucket-a") (str_of "other"));
    discriminate.
Defined.

(** * Further properties of the module *)

(** ** Whole computations: log and outcome together *)

Lemma bind_Return_pair {A B} (m : M A) (f : A -> M B) (l : list log_entry)
      (a : A) :
  m = (l, Return a) -> bind m f = (l ++ trace (f a), value (f a)).
Proof. intros ->. unfold bind, trace, value. destruct (f a); reflexivity. Qed.

Lemma pair_trace_value {A} (m : M A) : m = (trace m, value m).
Proof. destruct m; reflexivity. Qed.

(** The line loop, log and rows: one warning per malformed line, in
    order, and the kept rows appended to the list. *)
Lemma process_lines_run (lines : list str) (acc : list (list str)) :
  process_lines lines acc =
  (map WarningMalformedLine (filter malformed_line lines),
   Return (acc ++ parsed_rows lines)).
Proof.
  revert acc; induction lines as [|line rest IH]; intros acc.
  - simpl. rewrite app_nil_r; reflexivity.
  - rewrite process_lines_cons, not_strip.
    unfold parsed_rows, valid_line, malformed_line; simpl filter.
    change (length CLICKSTREAM_LABELS) with 4%nat.
    destruct (blank line); simpl negb; simpl andb; cbv iota.
    + rewrite IH. reflexivity.
    + cbv zeta.
      destruct (Nat.eqb (length (split DELIMITER line)) 4);
        simpl negb; cbv iota.
      * rewrite (bind_Return_pair _ _ [] (acc ++ [split DELIMITER line]))
          by reflexivity.
        rewrite IH. unfold trace, value. simpl.
        rewrite <- app_assoc. reflexivity.
      * rewrite (bind_Return_pair _ _ [WarningMalformedLine line] acc)
          by reflexivity.
        rewrite IH. reflexivity.
Qed.

Lemma trace_bind_Return {A B} (m : M A) (f : A -> M B) (a : A) :
  value m = Return a -> trace (bind m f) = trace m ++ trace (f a).
Proof.
  destruct m as [l o]; simpl; intros ->; simpl.
  destruct (f a); reflexivity.
Qed.

Lemma trace_bind_Raise {A B} (m : M A) (f : A -> M B) (e : exn) :
  value m = Raise e -> trace (bind m f) = trace m.
Proof. destruct m as [l o]; simpl; intros ->; reflexivity. Qed.

Lemma try_except_Return {A} (m : M A) (h : exn -> M A) (a : A) :
  value m = Return a -> try_except m h = m.
Proof. destruct m as [l o]; simpl; intros ->; reflexivity. Qed.

(** The log of the [try] block on a record whose payload decodes. *)
Lemma process_record_try_trace (r : record) (rid : str) (raw : bytes)
      (text : str) :
  rec_recordId r = Some rid ->
  b64decode (rec_data r) = Return raw ->
  utf8_decode raw = Return text ->
  trace (process_record_try r) =
  InfoProcessingRecord rid
  :: map WarningMalformedLine (filter malformed_line (split LF text)).
Proof.
  intros Hrid Hraw Htext.
  destruct (utf8_encode_scalar (csv_body text)) as (body & Hbody & Hall & _).
  { apply csv_body_scalar, (utf8_decode_scalar raw); exact Htext. }
  unfold process_record_try.
  rewrite (trace_bind_Return _ _ raw) by exact Hraw.
  rewrite (trace_bind_Return _ _ text) by exact Htext.
  rewrite Hrid.
  rewrite (trace_bind_Return _ _ rid) by reflexivity.
  rewrite (trace_bind_Return _ _ tt) by reflexivity.
  cbv zeta.
  rewrite (trace_bind_Return _ _ (parsed_rows (split LF text)))
    by apply process_lines_value.
  rewrite (trace_bind_Return _ _ {| df_columns := CLICKSTREAM_LABELS;
                                    df_values := parsed_rows (split LF text) |})
    by (apply pd_DataFrame_rows, parsed_rows_width).
  rewrite (trace_bind_Return _ _ body) by exact Hbody.
  rewrite (trace_bind_Return _ _ (b64encode body))
    by (apply utf8_decode_ascii, b2a_base64_ascii; exact Hall).
  rewrite (trace_bind_Return _ _ rid) by reflexivity.
  rewrite process_lines_run.
  unfold trace. simpl. rewrite !app_nil_r. reflexivity.
Qed.

Lemma process_record_Raise_key (r : record) (e : exn) :
  value (process_record r) = Raise e ->
  e = KeyError "recordId" \/ e = KeyError "data".
Proof.
  unfold process_record. intros H.
  apply value_try_inv in H as [(a & _ & E)|(e0 & _ & H)]; [discriminate|].
  rewrite process_record_except_value in H.
  destruct (rec_recordId r) as [rid|], (rec_data r) as [d|];
    try discriminate; injection H as <-; auto.
Qed.

Lemma handler_loop_Raise_key (rs : list record) :
  forall (response : list OutputRecord) (e : exn),
    value (handler_loop rs response) = Raise e ->
    e = KeyError "recordId" \/ e = KeyError "data".
Proof.
  induction rs as [|r rest IH]; intros response e H.
  - discriminate.
  - rewrite handler_loop_cons in H.
    apply value_bind_Raise_inv in H as [H|(o & _ & H)].
    + apply process_record_Raise_key in H. exact H.
    + apply IH in H. exact H.
Qed.

(** The loop over a batch that starts with records of the data model:
    their logs in order, then whatever the rest of the batch does,
    started from their outputs. *)
Lemma handler_loop_prefix (good : list InputRecord) (rest : list record) :
  forall response : list OutputRecord,
    exists outs,
      Forall2 (fun r o => value (process_record (as_dict r)) = Return o)
              good outs
      /\ handler_loop (map as_dict good ++ rest) response =
         (concat (map (fun r => trace (process_record (as_dict r))) good)
          ++ trace (handler_loop rest (response ++ outs)),
          value (handler_loop rest (response ++ outs))).
Proof.
  induction good as [|g good IH]; intros response.
  - exists []. split; [constructor|].
    simpl. rewrite app_nil_r. apply pair_trace_value.
  - destruct (process_record_returns g) as (o & Ho & _).
    destruct (IH (response ++ [o])) as (outs & Houts & Hrun).
    exists (o :: outs). split; [constructor; assumption|].
    simpl map. simpl app. rewrite handler_loop_cons.
    rewrite (bind_Return_pair _ _ (trace (process_record (as_dict g))) o).
    + rewrite Hrun. unfold trace at 2. unfold value at 1. simpl fst; simpl snd.
      simpl concat. rewrite <- !app_assoc. reflexivity.
    + rewrite <- Ho. apply pair_trace_value.
Qed.

(** [handler] on an event whose records start with records of the data
    model, once the configuration check has passed. *)
Lemma handler_prefix (c : N) (b : str) (event : Event) (context : unit)
      (good : list InputRecord) (rest : list record) :
  event_records event = map as_dict good ++ rest ->
  exists outs,
    Forall2 (fun r o => value (process_record (as_dict r)) = Return o)
            good outs
    /\ handler (Some (c :: b)) event context =
       (rs <- (concat (map (fun r => trace (process_record (as_dict r))) good)
               ++ trace (handler_loop rest outs),
               value (handler_loop rest outs)) ;;
        logger (InfoProcessed (length rs)) ;;;
        ret {| records := rs |}).
Proof.
  intros Hev. rewrite handler_configured, Hev.
  destruct (handler_loop_prefix good rest []) as (outs & Houts & ->).
  exists outs. split; [exact Houts | reflexivity].
Qed.

(** ** Missing keys *)

(** X1. On a dict without the key [recordId], [process_record] raises
    [KeyError('recordId')] whatever the data is, and writes no log line:
    the [except] block fails on its first statement. *)
Theorem process_record_missing_recordId (r : record) :
  rec_recordId r = None ->
  process_record r = ([], Raise (KeyError "recordId")).
Proof.
  intros H. unfold process_record, process_record_try, process_record_except.
  rewrite H.
  destruct (b64decode (rec_data r)) as [raw|e]; [|reflexivity].
  destruct (utf8_decode raw) as [text|e] eqn:E.
  - unfold lift, bind at 1. unfold bind at 1. rewrite E. reflexivity.
  - unfold lift, bind at 1. unfold bind at 1. rewrite E. reflexivity.
Qed.

Lemma process_record_missing_recordId_witness :
  process_record no_id_record = ([], Raise (KeyError "recordId")).
Proof. apply (process_record_missing_recordId no_id_record). reflexivity. Defined.

(** X2. On a dict with a [recordId] and without the key [data],
    [process_record] logs the [TypeError] of [b64decode(None)] as a
    record error and then raises [KeyError('data')] from the [except]
    block: [record.get('data')] tolerates the missing key, the
    [record['data']] of the failure path does not. *)
Theorem process_record_missing_data (r : record) (rid : str) :
  rec_recordId r = Some rid ->
  rec_data r = None ->
  process_record r =
  ([ErrorProcessingRecord rid
      (TypeError "argument should be a bytes-like object or ASCII string, not 'NoneType'")],
   Raise (KeyError "data")).
Proof.
  intros H1 H2. unfold process_record, process_record_try, process_record_except.
  rewrite H1, H2. reflexivity.
Qed.

Lemma process_record_missing_data_witness :
  process_record no_data_record =
  ([ErrorProcessingRecord (str_of "r3")
      (TypeError "argument should be a bytes-like object or ASCII string, not 'NoneType'")],
   Raise (KeyError "data")).
Proof.
  apply (process_record_missing_data no_data_record (str_of "r3")); reflexivity.
Defined.

(** ** The batch *)

(** X3. A record on which [process_record] raises aborts the batch:
    [handler] raises the same exception and returns no response, the
    outputs of the records before it are lost, and the records after it
    are not processed -- the log ends with the lines of the raising
    record. *)
Theorem handler_aborts_on_raise (c : N) (b : str) (event : Event)
        (context : unit) (good : list InputRecord) (bad : record)
        (rest : list record) (e : exn) :
  event_records event = map as_dict good ++ bad :: rest ->
  value (process_record bad) = Raise e ->
  handler (Some (c :: b)) event context =
  (concat (map (fun r => trace (process_record (as_dict r))) good)
   ++ trace (process_record bad),
   Raise e).
Proof.
  intros Hev Hbad.
  destruct (handler_prefix c b event context good (bad :: rest) Hev)
    as (outs & _ & ->).
  rewrite handler_loop_cons.
  rewrite (trace_bind_Raise _ _ e Hbad), (value_bind_Raise _ _ e Hbad).
  reflexivity.
Qed.

Lemma handler_aborts_on_raise_witness :
  handler (Some (str_of "bucket"))
          {| ev_records := Some [as_dict scenario_record; no_data_record;
                                 as_dict broken_record] |} tt =
  ([InfoProcessingRecord (str_of "r1");
    ErrorProcessingRecord (str_of "r3")
      (TypeError "argument should be a bytes-like object or ASCII string, not 'NoneType'")],
   Raise (KeyError "data")).
Proof.
  apply (handler_aborts_on_raise 98 (str_of "ucket")
           {| ev_records := Some [as_dict scenario_record; no_data_record;
                                  as_dict broken_record] |} tt
           [scenario_record] no_data_record [as_dict broken_record]
           (KeyError "data")); reflexivity.
Defined.

(** X4. On a batch of records of the data model, [handler] returns the
    outputs [process_record] gives for each record on its own, in
    order: no record changes the output of another one. *)
Theorem handler_processes_each_record (c : N) (b : str)
        (rs : list InputRecord) (context : unit) :
  exists outs : list OutputRecord,
    value (handler (Some (c :: b)) (batch rs) context)
    = Return {| records := outs |}
    /\ Forall2 (fun r o => value (process_record (as_dict r)) = Return o)
               rs outs.
Proof.
  destruct (handler_prefix c b (batch rs) context rs [])
    as (outs & Houts & ->).
  { unfold event_records, batch. simpl. rewrite app_nil_r. reflexivity. }
  exists outs. split; [reflexivity | exact Houts].
Qed.

(** X5. The log of [handler] on a batch of records of the data model is
    the logs of its records, in order, followed by one line that gives
    the number of records. *)
Theorem handler_log (c : N) (b : str) (rs : list InputRecord)
        (context : unit) :
  trace (handler (Some (c :: b)) (batch rs) context) =
  concat (map (fun r => trace (process_record (as_dict r))) rs)
  ++ [InfoProcessed (length rs)].
Proof.
  destruct (handler_prefix c b (batch rs) context rs [])
    as (outs & Houts & ->).
  { unfold event_records, batch. simpl. rewrite app_nil_r. reflexivity. }
  assert (Hlen : length outs = length rs).
  { clear -Houts. induction Houts; simpl; congruence. }
  simpl. rewrite app_nil_r, Hlen. reflexivity.
Qed.

(** X6. On an event whose [records] key is absent or holds a list of
    dicts, each with [recordId] and [data] absent or a string -- the
    events the types [Event] and [record] stand for -- no exception
    other than the configuration [ValueError] and the [KeyError] of a
    missing [recordId] or [data] key leaves [handler].  An event whose
    [records] value is no list, or a record that is no dict, is outside
    this statement. *)
Theorem handler_exceptions (data_bucket : option str) (event : Event)
        (context : unit) (e : exn) :
  value (handler data_bucket event context) = Raise e ->
  e = ValueError "Environment variable DATA_BUCKET_NAME is not set."
  \/ e = KeyError "recordId" \/ e = KeyError "data".
Proof.
  intros H.
  destruct data_bucket as [[|c b]|];
    try (rewrite handler_unset in H by auto; injection H as <-; auto).
  rewrite handler_configured in H. right.
  apply value_bind_Raise_inv in H as [H|(outs & _ & H)].
  - apply handler_loop_Raise_key in H. exact H.
  - apply value_bind_Raise_inv in H as [H|(u & _ & H)]; discriminate.
Qed.

(** A batch with a dict that has no [recordId]. *)
Lemma handler_exceptions_witness :
  value (handler (Some (str_of "bucket"))
                 {| ev_records := Some [no_id_record] |} tt)
  = Raise (KeyError "recordId")
  /\ (KeyError "recordId"
      = ValueError "Environment variable DATA_BUCKET_NAME is not set."
      \/ KeyError "recordId" = KeyError "recordId"
      \/ KeyError "recordId" = KeyError "data").
Proof.
  split; [reflexivity|].
  apply (handler_exceptions (Some (str_of "bucket"))
           {| ev_records := Some [no_id_record] |} tt (KeyError "recordId")).
  reflexivity.
Defined.

(** ** [split] and [join] *)

Lemma split_not_nil (sep : N) (s : str) : split sep s <> [].
Proof.
  destruct s as [|c s]; simpl; [discriminate|].
  destruct (c =? sep); [discriminate|].
  destruct (split sep s); discriminate.
Qed.

Lemma join_cons_head (sep : str) (c : N) (h : str) (t : list str) :
  join sep ((c :: h) :: t) = c :: join sep (h :: t).
Proof. destruct t; reflexivity. Qed.

(** Joining the pieces with the separator gives the text back. *)
Lemma join_split (sep : N) (s : str) : join [sep] (split sep s) = s.
Proof.
  induction s as [|c s IH]; [reflexivity|].
  simpl split. destruct (c =? sep) eqn:E.
  - apply N.eqb_eq in E. subst c.
    destruct (split sep s) as [|h t] eqn:Hs; [destruct (split_not_nil _ _ Hs)|].
    change (join [sep] ([] :: h :: t)) with (sep :: join [sep] (h :: t)).
    rewrite IH. reflexivity.
  - destruct (split sep s) as [|h t] eqn:Hs; [destruct (split_not_nil _ _ Hs)|].
    rewrite join_cons_head, IH. reflexivity.
Qed.

(** A text without the separator is one piece. *)
Lemma split_absent (sep : N) (s : str) :
  Forall (fun c => c <> sep) s -> split sep s = [s].
Proof.
  induction 1 as [|c s Hc _ IH]; [reflexivity|].
  simpl. apply N.eqb_neq in Hc. rewrite Hc, IH. reflexivity.
Qed.

(** The pieces of two texts put together with the separator between
    them are the pieces of the one, then the pieces of the other. *)
Lemma split_app_sep (sep : N) (s t : str) :
  split sep (s ++ sep :: t) = split sep s ++ split sep t.
Proof.
  induction s as [|c s IH]; simpl.
  - rewrite N.eqb_refl. reflexivity.
  - destruct (c =? sep); [rewrite IH; reflexivity|].
    rewrite IH.
    destruct (split sep s) as [|h r] eqn:Hs; [destruct (split_not_nil _ _ Hs)|].
    reflexivity.
Qed.

(** Joining the tab-separated fields of a line with commas replaces
    each tab of the line by a comma. *)
Lemma join_comma_split_tab (line : str) :
  join [COMMA] (split TAB line) = map tab_to_comma line.
Proof.
  induction line as [|c s IH]; [reflexivity|].
  cbn [split map]. unfold tab_to_comma at 1.
  destruct (split TAB s) as [|h t] eqn:Hs; [destruct (split_not_nil _ _ Hs)|].
  destruct (c =? TAB).
  - change (join [COMMA] ([] :: h :: t)) with (COMMA :: join [COMMA] (h :: t)).
    rewrite IH. reflexivity.
  - rewrite join_cons_head, IH. reflexivity.
Qed.

Lemma plain_Forall (f : str) :
  Forall (fun c => csv_special c = false) f -> plain f = true.
Proof.
  intros H. unfold plain. apply negb_true_iff.
  induction H as [|c f Hc _ IH]; simpl; [reflexivity|].
  rewrite Hc, IH. reflexivity.
Qed.

Lemma csv_line_plain_line (line : str) :
  Forall (fun c => csv_special c = false) line ->
  csv_line (split DELIMITER line) = map tab_to_comma line ++ [LF].
Proof.
  intros H. unfold csv_line. f_equal.
  rewrite <- join_comma_split_tab. f_equal.
  pose proof (split_Forall _ DELIMITER line H) as Hf.
  change TAB with DELIMITER.
  induction Hf as [|f fs Hf _ IH]; simpl; [reflexivity|].
  rewrite (csv_field_plain f (plain_Forall f Hf)), IH. reflexivity.
Qed.

(** ** The payload *)

Lemma csv_body_concat (text1 text2 : str) :
  csv_body (text1 ++ LF :: text2) = csv_body text1 ++ csv_body text2.
Proof.
  unfold csv_body.
  rewrite split_app_sep, parsed_rows_app, map_app, concat_app. reflexivity.
Qed.

Lemma csv_body_no_tab (text : str) :
  Forall (fun c => c <> TAB) (csv_body text).
Proof.
  unfold csv_body. apply csv_rows_Forall; try discriminate.
  unfold parsed_rows.
  induction (filter valid_line (split LF text)) as [|l ls IH]; simpl;
    constructor; [apply split_no_sep | exact IH].
Qed.

(** A text without a tab has no line of four fields. *)
Lemma parsed_rows_no_tab (text : str) :
  Forall (fun c => c <> TAB) text -> parsed_rows (split LF text) = [].
Proof.
  intros H. apply parsed_rows_none.
  pose proof (split_Forall _ LF text H) as Hl.
  eapply Forall_impl; [|exact Hl].
  intros line Hline. apply not_four_fields_invalid.
  unfold DELIMITER. rewrite (split_absent TAB line Hline). discriminate.
Qed.

Lemma transforms_to_csv_body (r : InputRecord) (raw : bytes) (text : str) :
  b64decode (Some (in_data r)) = Return raw ->
  utf8_decode raw = Return text ->
  transforms_to r (csv_body text).
Proof.
  intros Hraw Htext.
  destruct (process_record_decoded (as_dict r) (in_recordId r) raw text
                                   eq_refl Hraw Htext)
    as (body & _ & Hall & Hdec & Hval).
  exists {| out_recordId := in_recordId r; result := Ok;
            out_data := b64encode body |}, body.
  repeat split; try assumption.
  apply b64decode_b64encode. exact Hall.
Qed.

(** ** The encoder's output *)

Lemma table_b2a_char (v : N) : v < 64 -> base64_char (table_b2a_base64 v) = true.
Proof.
  intros H. unfold base64_char.
  destruct (table_a2b_b2a v H) as (-> & _). reflexivity.
Qed.

(** What [b2a_base64] writes: characters of the alphabet and pads, four
    for every three bytes begun. *)
Lemma b2a_base64_shape (bin : bytes) :
  all_bytes bin ->
  forallb base64_char (b2a_base64 bin) = true
  /\ exists k, length (b2a_base64 bin) = (k * 4)%nat.
Proof.
  induction bin as [|a|a b|a b c r IH] using list_ind3; intros Hall.
  - split; [reflexivity | exists 0%nat; reflexivity].
  - apply Forall_inv in Hall. cbn [b2a_base64 forallb].
    rewrite !table_b2a_char by lia.
    split; [reflexivity | exists 1%nat; reflexivity].
  - pose proof (Forall_inv Hall) as Ha.
    pose proof (Forall_inv (Forall_inv_tail Hall)) as Hb. cbv beta in Ha, Hb.
    cbn [b2a_base64 forallb].
    rewrite !table_b2a_char by lia.
    split; [reflexivity | exists 1%nat; reflexivity].
  - pose proof (Forall_inv Hall) as Ha.
    pose proof (Forall_inv (Forall_inv_tail Hall)) as Hb.
    pose proof (Forall_inv (Forall_inv_tail (Forall_inv_tail Hall))) as Hc.
    cbv beta in Ha, Hb, Hc.
    apply Forall_inv_tail, Forall_inv_tail, Forall_inv_tail in Hall.
    destruct (IH Hall) as [IH1 (k & IH2)].
    cbn [b2a_base64 forallb].
    rewrite !table_b2a_char by lia. split; [exact IH1|].
    exists (S k). cbn [length]. rewrite IH2. reflexivity.
Qed.

(** ** The log of a record *)

(** X7. On a record whose [data] decodes, [process_record] logs the
    line that names the record and then one warning for each line of
    the payload that is not blank and has not four fields, in the order
    of the payload; blank lines and kept lines are not logged, and no
    error line is written. *)
Theorem process_record_log_decoded (r : record) (rid : str) (raw : bytes)
        (text : str) :
  rec_recordId r = Some rid ->
  b64decode (rec_data r) = Return raw ->
  utf8_decode raw = Return text ->
  trace (process_record r) =
  InfoProcessingRecord rid
  :: map WarningMalformedLine (filter malformed_line (split LF text)).
Proof.
  intros Hrid Hraw Htext.
  destruct (process_record_try_decoded r rid raw text Hrid Hraw Htext)
    as (body & _ & _ & _ & Hval).
  unfold process_record. rewrite (try_except_Return _ _ _ Hval).
  apply (process_record_try_trace r rid raw text Hrid Hraw Htext).
Qed.

(** The payload [a\tb\tc\t1\nbadline\n]: one warning, for [badline]. *)
Lemma process_record_log_decoded_witness :
  trace (process_record (as_dict (record_with "YQliCWMJMQpiYWRsaW5lCg=="))) =
  [InfoProcessingRecord (str_of "r1"); WarningMalformedLine (str_of "badline")].
Proof.
  apply (process_record_log_decoded
           (as_dict (record_with "YQliCWMJMQpiYWRsaW5lCg==")) (str_of "r1")
           (tsv [["a"; "b"; "c"; "1"]; ["badline"]]%string)
           (tsv [["a"; "b"; "c"; "1"]; ["badline"]]%string)); reflexivity.
Defined.

(** X8. On a record whose [data] does not decode, [process_record]
    writes exactly one log line, the record error with the exception
    the decoder raised; the line that names the record is not written,
    since decoding comes first.  The record is returned as failed with
    its input [data]. *)
Theorem process_record_log_undecodable (r : InputRecord) (e : exn) :
  b64decode (Some (in_data r)) = Raise e
  \/ (exists raw, b64decode (Some (in_data r)) = Return raw
                  /\ utf8_decode raw = Raise e) ->
  process_record (as_dict r) =
  ([ErrorProcessingRecord (in_recordId r) e],
   Return {| out_recordId := in_recordId r; result := ProcessingFailed;
             out_data := in_data r |}).
Proof.
  unfold process_record, process_record_try, process_record_except.
  simpl rec_data; simpl rec_recordId.
  intros [H|(raw & H1 & H2)].
  - rewrite H. reflexivity.
  - rewrite H1. unfold lift, bind at 1. unfold bind at 1. rewrite H2.
    reflexivity.
Qed.

Lemma process_record_log_undecodable_witness :
  process_record (as_dict binary_record) =
  ([ErrorProcessingRecord (str_of "r4") UnicodeDecodeError],
   Return {| out_recordId := str_of "r4"; result := ProcessingFailed;
             out_data := str_of "/w==" |}).
Proof.
  apply (process_record_log_undecodable binary_record UnicodeDecodeError).
  right. exists [255]. split; reflexivity.
Defined.

(** ** The output of a record *)

(** X9. The output of a successful record, processed again, gives an
    empty payload: the CSV text holds no tab, so none of its lines has
    four tab-separated fields. *)
Theorem process_record_twice (r : InputRecord) (raw : bytes) (text : str) :
  b64decode (Some (in_data r)) = Return raw ->
  utf8_decode raw = Return text ->
  exists out : OutputRecord,
    value (process_record (as_dict r)) = Return out
    /\ result out = Ok
    /\ value (process_record (as_dict (as_input out))) =
       Return {| out_recordId := in_recordId r; result := Ok; out_data := [] |}.
Proof.
  intros Hraw Htext.
  destruct (process_record_decoded (as_dict r) (in_recordId r) raw text
                                   eq_refl Hraw Htext)
    as (body & _ & Hall & Hdec & Hval).
  exists {| out_recordId := in_recordId r; result := Ok;
            out_data := b64encode body |}.
  split; [exact Hval|]. split; [reflexivity|].
  apply (process_record_no_rows
           (as_input {| out_recordId := in_recordId r; result := Ok;
                        out_data := b64encode body |})
           body (csv_body text)).
  - apply b64decode_b64encode. exact Hall.
  - exact Hdec.
  - apply parsed_rows_no_tab, csv_body_no_tab.
Qed.

Lemma process_record_twice_witness :
  exists out : OutputRecord,
    value (process_record (as_dict scenario_record)) = Return out
    /\ result out = Ok
    /\ value (process_record (as_dict (as_input out))) =
       Return {| out_recordId := str_of "r1"; result := Ok; out_data := [] |}.
Proof.
  apply (process_record_twice scenario_record scenario_text scenario_text);
    reflexivity.
Defined.

(** X10. The [data] of a successful output is base64 as the encoder
    writes it: only characters of the alphabet and pads, a multiple of
    four of them, and encoding the bytes it decodes to gives it back. *)
Theorem process_record_output_is_base64 (r : InputRecord) (raw : bytes)
        (text : str) :
  b64decode (Some (in_data r)) = Return raw ->
  utf8_decode raw = Return text ->
  exists (out : OutputRecord) (body : bytes),
    value (process_record (as_dict r)) = Return out
    /\ forallb base64_char (out_data out) = true
    /\ Nat.modulo (length (out_data out)) 4 = 0%nat
    /\ b64decode (Some (out_data out)) = Return body
    /\ b64encode body = out_data out.
Proof.
  intros Hraw Htext.
  destruct (process_record_decoded (as_dict r) (in_recordId r) raw text
                                   eq_refl Hraw Htext)
    as (body & _ & Hall & _ & Hval).
  exists {| out_recordId := in_recordId r; result := Ok;
            out_data := b64encode body |}, body.
  destruct (b2a_base64_shape body Hall) as (Hchars & k & Hlen).
  cbn [out_data]. repeat split.
  - exact Hval.
  - exact Hchars.
  - unfold b64encode. rewrite Hlen. apply Nat.Div0.mod_mul.
  - apply b64decode_b64encode. exact Hall.
Qed.

Lemma process_record_output_is_base64_witness :
  exists (out : OutputRecord) (body : bytes),
    value (process_record (as_dict scenario_record)) = Return out
    /\ forallb base64_char (out_data out) = true
    /\ Nat.modulo (length (out_data out)) 4 = 0%nat
    /\ b64decode (Some (out_data out)) = Return body
    /\ b64encode body = out_data out.
Proof.
  apply (process_record_output_is_base64 scenario_record scenario_text
                                         scenario_text); reflexivity.
Defined.

(** X11. Payloads compose: the output text for two payloads put
    together with a line feed between them is the output text for the
    first followed by the output text for the second. *)
Theorem process_record_concatenation (r1 r2 r12 : InputRecord)
        (raw1 raw2 raw12 : bytes) (text1 text2 : str) :
  b64decode (Some (in_data r1)) = Return raw1 ->
  utf8_decode raw1 = Return text1 ->
  b64decode (Some (in_data r2)) = Return raw2 ->
  utf8_decode raw2 = Return text2 ->
  b64decode (Some (in_data r12)) = Return raw12 ->
  utf8_decode raw12 = Return (text1 ++ LF :: text2) ->
  exists csv1 csv2 : str,
    transforms_to r1 csv1 /\ transforms_to r2 csv2
    /\ transforms_to r12 (csv1 ++ csv2).
Proof.
  intros H1 T1 H2 T2 H12 T12.
  exists (csv_body text1), (csv_body text2). repeat split.
  - apply (transforms_to_csv_body r1 raw1 text1 H1 T1).
  - apply (transforms_to_csv_body r2 raw2 text2 H2 T2).
  - rewrite <- csv_body_concat.
    apply (transforms_to_csv_body r12 raw12 _ H12 T12).
Qed.

(** [a\tb\tc\t1], [x\ty\tz\t2\n] and the two with a line feed between. *)
Lemma process_record_concatenation_witness :
  exists csv1 csv2 : str,
    transforms_to (record_with "YQliCWMJMQ==") csv1
    /\ transforms_to (record_with "eAl5CXoJMgo=") csv2
    /\ transforms_to scenario_record (csv1 ++ csv2).
Proof.
  apply (process_record_concatenation
           (record_with "YQliCWMJMQ==") (record_with "eAl5CXoJMgo=")
           scenario_record
           (join [TAB] (map str_of ["a"; "b"; "c"; "1"]%string))
           (tsv [["x"; "y"; "z"; "2"]]%string)
           scenario_text
           (join [TAB] (map str_of ["a"; "b"; "c"; "1"]%string))
           (tsv [["x"; "y"; "z"; "2"]]%string)); reflexivity.
Defined.

(** X12. When the decoded payload holds no comma and no double quote,
    each output line is a kept line of the payload with every tab
    replaced by a comma, and nothing else changed: fields are not
    trimmed, converted or quoted. *)
Theorem process_record_tabs_to_commas (r : InputRecord) (raw : bytes)
        (text : str) :
  b64decode (Some (in_data r)) = Return raw ->
  utf8_decode raw = Return text ->
  Forall (fun c => c <> COMMA /\ c <> DQUOTE) text ->
  transforms_to r
    (concat (map (fun line => map tab_to_comma line ++ [LF])
                 (filter valid_line (split LF text)))).
Proof.
  intros Hraw Htext Hplain.
  replace (concat _) with (csv_body text);
    [apply (transforms_to_csv_body r raw text Hraw Htext)|].
  rewrite csv_body_lines.
  assert (Hlines : Forall (Forall (fun c => csv_special c = false))
                          (split LF text)).
  { pose proof (split_no_sep LF text) as Hno.
    pose proof (split_Forall _ LF text Hplain) as Hpl.
    clear -Hno Hpl.
    induction Hno as [|l ls Hl _ IH]; [constructor|].
    constructor; [|apply IH; exact (Forall_inv_tail Hpl)].
    apply Forall_inv in Hpl. clear -Hl Hpl.
    induction Hl as [|c l Hc _ IHl]; [constructor|].
    constructor; [|apply IHl; exact (Forall_inv_tail Hpl)].
    apply Forall_inv in Hpl. destruct Hpl as [Hcomma Hquote].
    unfold csv_special.
    apply N.eqb_neq in Hc, Hcomma, Hquote. rewrite Hc, Hcomma, Hquote.
    reflexivity. }
  induction Hlines as [|l ls Hl _ IH]; simpl; [reflexivity|].
  destruct (valid_line l); simpl; [|exact IH].
  rewrite IH, (csv_line_plain_line l Hl). reflexivity.
Qed.

Lemma process_record_tabs_to_commas_witness :
  transforms_to scenario_record
    (str_of "a,b,c,1" ++ [LF] ++ str_of "x,y,z,2" ++ [LF]).
Proof.
  apply (process_record_tabs_to_commas scenario_record scenario_text
                                       scenario_text); try reflexivity.
  repeat constructor; discriminate.
Defined.

(** X13. The result and the output [data] of a record depend on its
    [data] only: two records with the same [data] come back with the
    same result and the same output [data], each under its own
    [recordId]. *)
Theorem process_record_ignores_recordId (r1 r2 : InputRecord) :
  in_data r1 = in_data r2 ->
  exists o1 o2 : OutputRecord,
    value (process_record (as_dict r1)) = Return o1
    /\ value (process_record (as_dict r2)) = Return o2
    /\ out_recordId o1 = in_recordId r1 /\ out_recordId o2 = in_recordId r2
    /\ result o1 = result o2 /\ out_data o1 = out_data o2.
Proof.
  intros Hd.
  destruct (undecodable (in_data r1)) eqn:U.
  - exists {| out_recordId := in_recordId r1; result := ProcessingFailed;
              out_data := in_data r1 |},
           {| out_recordId := in_recordId r2; result := ProcessingFailed;
              out_data := in_data r2 |}.
    repeat split; try assumption.
    + apply process_record_failed, undecodable_fails, U.
    + apply process_record_failed, undecodable_fails. rewrite <- Hd. exact U.
  - unfold undecodable in U.
    destruct (b64decode (Some (in_data r1))) as [raw|] eqn:Hraw;
      [|discriminate].
    destruct (utf8_decode raw) as [text|] eqn:Htext; [|discriminate].
    destruct (process_record_decoded (as_dict r1) (in_recordId r1) raw text
                                     eq_refl Hraw Htext)
      as (b1 & Hb1 & _ & _ & Hv1).
    rewrite Hd in Hraw.
    destruct (process_record_decoded (as_dict r2) (in_recordId r2) raw text
                                     eq_refl Hraw Htext)
      as (b2 & Hb2 & _ & _ & Hv2).
    rewrite Hb1 in Hb2. injection Hb2 as <-.
    eexists; eexists. split; [exact Hv1|]. split; [exact Hv2|].
    repeat split.
Qed.

Lemma process_record_ignores_recordId_witness :
  exists o1 o2 : OutputRecord,
    value (process_record (as_dict scenario_record)) = Return o1
    /\ value (process_record
                (as_dict {| in_recordId := str_of "other";
                            in_data := in_data scenario_record |}))
       = Return o2
    /\ out_recordId o1 = str_of "r1" /\ out_recordId o2 = str_of "other"
    /\ result o1 = result o2 /\ out_data o1 = out_data o2.
Proof.
  apply (process_record_ignores_recordId
           scenario_record
           {| in_recordId := str_of "other";
              in_data := in_data scenario_record |}).
  reflexivity.
Defined.

(** ** The line loop *)

Lemma lines_partition (lines : list str) :
  (length (filter malformed_line lines) + length (filter valid_line lines)
   + length (filter blank lines) = length lines)%nat.
Proof.
  induction lines as [|l ls IH]; [reflexivity|].
  cbn [filter]. unfold malformed_line at 1, valid_line at 1.
  destruct (blank l); [simpl; lia|].
  destruct (Nat.eqb (length (split DELIMITER l)) (length CLICKSTREAM_LABELS));
    simpl; lia.
Qed.

(** X14. The line loop accounts for every line: a line is skipped
    without a word when it is blank, kept as a row when it has four
    fields, and otherwise dropped with one warning; the loop never
    raises and never logs a line error, so the inner [except] block is
    dead code. *)
Theorem process_lines_accounts_for_lines (lines : list str)
        (records : list (list str)) :
  exists rows : list (list str),
    process_lines lines records =
    (map WarningMalformedLine (filter malformed_line lines),
     Return (records ++ rows))
    /\ (length (filter malformed_line lines) + length rows
        + length (filter blank lines) = length lines)%nat.
Proof.
  exists (parsed_rows lines). split; [apply process_lines_run|].
  unfold parsed_rows. rewrite length_map. apply lines_partition.
Qed.

(** X15. Every row the loop keeps has four fields, and joined by tabs
    it is, character for character, a line of the payload; the rows are
    the kept lines in the order of the payload. *)
Theorem kept_rows_are_payload_lines (lines : list str) :
  exists rows : list (list str),
    value (process_lines lines []) = Return rows
    /\ Forall (fun row => length row = 4%nat) rows
    /\ map (join [DELIMITER]) rows = filter valid_line lines
    /\ incl (map (join [DELIMITER]) rows) lines.
Proof.
  exists (parsed_rows lines). split; [apply process_lines_value|].
  split; [apply parsed_rows_width|].
  assert (H : map (join [DELIMITER]) (parsed_rows lines)
              = filter valid_line lines).
  { unfold parsed_rows. rewrite map_map.
    rewrite <- (map_id (filter valid_line lines)) at 2.
    apply map_ext. intros l. apply join_split. }
  split; [exact H|].
  rewrite H. intros l Hl. apply filter_In in Hl. tauto.
Qed.
